(** * Calculator: the input/operator state machine of [script.js]

    A shallow embedding of the calculator script.  The four globals of the
    script and the display element become a record; every function of the
    script becomes a function on that record.  The JavaScript built-ins the
    script calls ([parseFloat], [Math.round], [Number.prototype.toString],
    the arithmetic operators and a few [String] methods) are modelled in
    [Module JS] over IEEE-754 binary64 numbers ([spec_float] with
    [prec = 53], [emax = 1024]).  Strings are strings of 8-bit characters:
    every character the script reads or writes is ASCII. *)

From Stdlib Require Import ZArith String Ascii List Bool Lia.
From Stdlib Require Import SpecFloat DecimalString.
Import ListNotations.

Local Open Scope string_scope.

(** ** The JavaScript run time the script relies on *)

Module JS.

(** *** Strings *)

(** [s.length] *)
Definition length (s : string) : nat := String.length s.

(** [s.startsWith(p)] *)
Definition startsWith (s p : string) : bool := String.prefix p s.

(** [s.includes(sub)] *)
Fixpoint includes (s sub : string) : bool :=
  String.prefix sub s
  || match s with
     | EmptyString => false
     | String _ s' => includes s' sub
     end.

(** [s.substring(1)] *)
Definition substring1 (s : string) : string :=
  match s with
  | EmptyString => EmptyString
  | String _ s' => s'
  end.

(** [s.slice(0, -1)] *)
Fixpoint slice_0_m1 (s : string) : string :=
  match s with
  | EmptyString => EmptyString
  | String _ EmptyString => EmptyString
  | String c s' => String c (slice_0_m1 s')
  end.

(** *** Numbers: IEEE-754 binary64 *)

Definition number : Set := spec_float.

Definition prec : Z := 53.
Definition emax : Z := 1024.

Definition NaN : number := S754_nan.
Definition pos_zero : number := S754_zero false.

(** The Number value of an integer (round to nearest, ties to even). *)
Definition of_Z (z : Z) : number := binary_normalize prec emax z 0 false.

(** The Number value of the rational [n / d], [n, d > 0]. *)
Definition of_ratio (n d : positive) : number :=
  SFdiv prec emax (S754_finite false n 0) (S754_finite false d 0).

Definition add : number -> number -> number := SFadd prec emax.
Definition sub : number -> number -> number := SFsub prec emax.
Definition mul : number -> number -> number := SFmul prec emax.
Definition div : number -> number -> number := SFdiv prec emax.

(** [x === y] on numbers: [NaN] differs from itself, [+0 === -0]. *)
Definition strict_eq (x y : number) : bool := SFeqb x y.

(** [x % y]: the remainder of the truncating division, exact, with the sign
    of the dividend. *)
Definition rem (x y : number) : number :=
  match x, y with
  | S754_nan, _ | _, S754_nan => NaN
  | S754_infinity _, _ => NaN
  | _, S754_zero _ => NaN
  | _, S754_infinity _ => x
  | S754_zero _, _ => x
  | S754_finite sx mx ex, S754_finite _ my ey =>
      let e0 := Z.min ex ey in
      let X := Z.shiftl (Zpos mx) (ex - e0) in
      let Y := Z.shiftl (Zpos my) (ey - e0) in
      let R := Z.modulo X Y in
      if (R =? 0)%Z then S754_zero sx
      else binary_normalize prec emax (if sx then (- R)%Z else R) e0 false
  end.

(** [Math.round(x)]: the closest integer, ties towards +infinity; keeps the
    sign of a zero result. *)
Definition Math_round (x : number) : number :=
  match x with
  | S754_finite s m e =>
      if (0 <=? e)%Z then x
      else
        let M := if s then Zneg m else Zpos m in
        let q := Z.div (2 * M + 2 ^ (- e))%Z (2 ^ (1 - e))%Z in
        if (q =? 0)%Z then S754_zero s else of_Z q
  | _ => x
  end.

(** *** [parseFloat] *)

Definition is_digit (c : ascii) : bool :=
  (48 <=? nat_of_ascii c)%nat && (nat_of_ascii c <=? 57)%nat.

Definition is_space (c : ascii) : bool :=
  let n := nat_of_ascii c in
  ((9 <=? n)%nat && (n <=? 13)%nat) || (n =? 32)%nat || (n =? 160)%nat.

Fixpoint trim_start (s : string) : string :=
  match s with
  | String c s' => if is_space c then trim_start s' else s
  | EmptyString => s
  end.

(** The longest run of decimal digits at the head of [s]: their value, how
    many they are, and what follows them. *)
Fixpoint scan_digits (acc : Z) (len : nat) (s : string) : Z * nat * string :=
  match s with
  | String c s' =>
      if is_digit c
      then scan_digits (10 * acc + Z.of_nat (nat_of_ascii c - 48)) (S len) s'
      else (acc, len, s)
  | EmptyString => (acc, len, s)
  end.

Definition scan_sign (s : string) : bool * string :=
  match s with
  | String "-" s' => (true, s')
  | String "+" s' => (false, s')
  | _ => (false, s)
  end.

(** The value of an ExponentPart at the head of [s], 0 when there is none. *)
Definition scan_exponent (s : string) : Z :=
  match s with
  | String c s' =>
      if (Ascii.eqb c "e" || Ascii.eqb c "E")%char then
        let '(neg, s'') := scan_sign s' in
        let '(v, len, _) := scan_digits 0 0 s'' in
        match len with
        | O => 0%Z
        | _ => if neg then (- v)%Z else v
        end
      else 0%Z
  | EmptyString => 0%Z
  end.

(** The Number value of [m * 10 ^ e], [m >= 0]. *)
Definition of_decimal (m e : Z) : number :=
  match m with
  | Zpos p =>
      match e with
      | Zneg q => of_ratio p (10 ^ q)
      | _ => of_Z (m * 10 ^ e)
      end
  | _ => pos_zero
  end.

(** [parseFloat(s)]: the value of the longest prefix of [s], after leading
    white space, that is a StrDecimalLiteral; [NaN] when there is none. *)
Definition parseFloat (s : string) : number :=
  let '(neg, s1) := scan_sign (trim_start s) in
  let sgn := fun x : number => if neg then SFopp x else x in
  if String.prefix "Infinity" s1 then sgn (S754_infinity false)
  else
    let '(ip, ilen, s2) := scan_digits 0 0 s1 in
    let '(m, flen, s3) :=
      match s2 with
      | String "." s2' => scan_digits ip 0 s2'
      | _ => (ip, O, s2)
      end in
    match (ilen + flen)%nat with
    | O => NaN
    | _ => sgn (of_decimal m (scan_exponent s3 - Z.of_nat flen))
    end.

(** *** [Number.prototype.toString] (radix 10) *)

(** The decimal digits of a natural number, most significant first. *)
Definition decimal (n : N) : string := NilZero.string_of_uint (N.to_uint n).

Fixpoint zeros (n : nat) : string :=
  match n with
  | O => EmptyString
  | S n' => String "0" (zeros n')
  end.

(** [x = num / den] for a finite, positive [x = m * 2 ^ e]. *)
Definition ratio_of (m : positive) (e : Z) : Z * Z :=
  match e with
  | Zneg _ => (Zpos m, 2 ^ (- e))%Z
  | _ => (Zpos m * 2 ^ e, 1)%Z
  end.

(** The [n] with [10 ^ (n - 1) <= x < 10 ^ n].  The least positive Number is
    [2 ^ -1074 > 10 ^ -324], so [x * 10 ^ 324 >= 1] and the number of digits
    of its integer part is [n + 324]. *)
Definition decimal_exponent (m : positive) (e : Z) : Z :=
  let '(num, den) := ratio_of m e in
  (Z.of_nat (String.length (decimal (Z.to_N (num * 10 ^ 324 / den)))) - 324)%Z.

(** [10 ^ z] for [z >= 0], 1 otherwise. *)
Definition pow10 (z : Z) : Z := (10 ^ Z.max 0 z)%Z.

(** The candidates with [k] digits: the two integers [s] around
    [x / 10 ^ (n - k)], kept when [s * 10 ^ (n - k)] has Number value [x];
    of two that do, the one closer to [x], the even one on a tie. *)
Definition digits_candidate (m : positive) (e n : Z) (k : Z) : option Z :=
  let x := S754_finite false m e in
  let '(num, den) := ratio_of m e in
  let p := (n - k)%Z in
  let A := (num * pow10 (- p))%Z in
  let B := (den * pow10 p)%Z in
  let lo := (A / B)%Z in
  let r := (A mod B)%Z in
  let hi := (lo + 1)%Z in
  let ok := fun s => strict_eq (of_decimal s p) x in
  match ok lo, ok hi with
  | true, true =>
      match (2 * r ?= B)%Z with
      | Lt => Some lo
      | Gt => Some hi
      | Eq => Some (if Z.even lo then lo else hi)
      end
  | true, false => Some lo
  | false, true => Some hi
  | false, false => None
  end.

(** The least [k >= 1] with a candidate, and that candidate; 17 digits
    always identify a binary64 number. *)
Fixpoint shortest_from (m : positive) (e n : Z) (k : Z) (fuel : nat) : Z * Z :=
  match fuel with
  | O => (k, fst (ratio_of m e) * pow10 (k - n) / (snd (ratio_of m e) * pow10 (n - k)))%Z
  | S fuel' =>
      match digits_candidate m e n k with
      | Some s => (k, s)
      | None => shortest_from m e n (k + 1) fuel'
      end
  end.

(** The digits [s] and the exponent [n] of the shortest decimal that has
    Number value [x]: [x] is [0.s * 10 ^ n]. *)
Definition shortest (m : positive) (e : Z) : string * Z :=
  let n := decimal_exponent m e in
  let '(k, s) := shortest_from m e n 1 17 in
  if (s =? 10 ^ k)%Z then (decimal (Z.to_N (10 ^ (k - 1))), n + 1)%Z
  else (decimal (Z.to_N s), n).

(** Steps 5 to 8 of Number::toString on the digits and the exponent. *)
Definition format_decimal (digits : string) (n : Z) : string :=
  let k := Z.of_nat (String.length digits) in
  if ((-5 <=? n) && (n <=? 21))%Z then
    if (k <=? n)%Z then digits ++ zeros (Z.to_nat (n - k))
    else if (0 <? n)%Z then
      substring 0 (Z.to_nat n) digits ++ "."
        ++ substring (Z.to_nat n) (Z.to_nat (k - n)) digits
    else "0." ++ zeros (Z.to_nat (- n)) ++ digits
  else
    let c := if (0 <=? n - 1)%Z then "+" else "-" in
    let ex := decimal (Z.to_N (Z.abs (n - 1))) in
    if (k =? 1)%Z then digits ++ "e" ++ c ++ ex
    else
      substring 0 1 digits ++ "." ++ substring 1 (Z.to_nat (k - 1)) digits
        ++ "e" ++ c ++ ex.

(** [x.toString()] *)
Definition toString (x : number) : string :=
  match x with
  | S754_nan => "NaN"
  | S754_zero _ => "0"
  | S754_infinity s => (if s then "-" else "") ++ "Infinity"
  | S754_finite s m e =>
      let '(digits, n) := shortest m e in
      (if s then "-" else "") ++ format_decimal digits n
  end.

End JS.

(** ** The calculator state *)

(** The four globals of the script, and the display element: [display] lists
    the values assigned to [display.value], the latest first. *)
Record calc : Set := mkCalc {
  currentInput : string;
  previousInput : string;
  operator : string;
  shouldResetDisplay : bool;
  display : list string
}.

Definition set_currentInput (v : string) (s : calc) : calc :=
  mkCalc v (previousInput s) (operator s) (shouldResetDisplay s) (display s).

Definition set_previousInput (v : string) (s : calc) : calc :=
  mkCalc (currentInput s) v (operator s) (shouldResetDisplay s) (display s).

Definition set_operator (v : string) (s : calc) : calc :=
  mkCalc (currentInput s) (previousInput s) v (shouldResetDisplay s) (display s).

Definition set_shouldResetDisplay (v : bool) (s : calc) : calc :=
  mkCalc (currentInput s) (previousInput s) (operator s) v (display s).

(** What the display shows: the value assigned last. *)
Definition display_value (s : calc) : string := hd "" (display s).

(** The state once the page is loaded: the globals as declared, and the
    display set to ["0"] by the [DOMContentLoaded] handler. *)
Definition init : calc := mkCalc "" "" "" false ["0"].

(** ** The functions of the script *)

Definition updateDisplay (value : string) (s : calc) : calc :=
  mkCalc (currentInput s) (previousInput s) (operator s)
         (shouldResetDisplay s) (value :: display s).

Definition appendNumber (number : string) (s : calc) : calc :=
  let s :=
    if shouldResetDisplay s
    then set_shouldResetDisplay false (set_currentInput "" s)
    else s in
  if (currentInput s =? "0") && (number =? "0") then s
  else
    let s :=
      if (currentInput s =? "0") && negb (number =? "0")
      then set_currentInput number s
      else set_currentInput (currentInput s ++ number) s in
    updateDisplay (currentInput s) s.

Definition appendDecimal (s : calc) : calc :=
  let s :=
    if shouldResetDisplay s
    then set_shouldResetDisplay false (set_currentInput "0" s)
    else s in
  let s := if currentInput s =? "" then set_currentInput "0" s else s in
  if negb (JS.includes (currentInput s) ".") then
    let s := set_currentInput (currentInput s ++ ".") s in
    updateDisplay (currentInput s) s
  else s.

Definition clearAll (s : calc) : calc :=
  let s := set_currentInput "" s in
  let s := set_previousInput "" s in
  let s := set_operator "" s in
  let s := set_shouldResetDisplay false s in
  updateDisplay "0" s.

(** [Math.round(result * 100000000) / 100000000] *)
Definition round8 (result : JS.number) : JS.number :=
  JS.div (JS.Math_round (JS.mul result (JS.of_Z 100000000)))
         (JS.of_Z 100000000).

(** The tail of [calculateResult], after the [switch]. *)
Definition commitResult (result : JS.number) (s : calc) : calc :=
  let result := round8 result in
  let s := updateDisplay (JS.toString result) s in
  let s := set_currentInput (JS.toString result) s in
  let s := set_previousInput "" s in
  let s := set_operator "" s in
  set_shouldResetDisplay true s.

Definition calculateResult (s : calc) : calc :=
  if (previousInput s =? "") || (currentInput s =? "") || (operator s =? "")
  then s
  else
    let prev := JS.parseFloat (previousInput s) in
    let current := JS.parseFloat (currentInput s) in
    if operator s =? "+" then commitResult (JS.add prev current) s
    else if operator s =? "-" then commitResult (JS.sub prev current) s
    else if operator s =? "*" then commitResult (JS.mul prev current) s
    else if operator s =? "/" then
      if JS.strict_eq current JS.pos_zero
      then clearAll (updateDisplay "Error" s)
      else commitResult (JS.div prev current) s
    else if operator s =? "%" then
      if JS.strict_eq current JS.pos_zero
      then clearAll (updateDisplay "Error" s)
      else commitResult (JS.rem prev current) s
    else s.

Definition appendOperator (op : string) (s : calc) : calc :=
  let s :=
    if negb (currentInput s =? "") && negb (previousInput s =? "")
       && negb (operator s =? "")
    then calculateResult s
    else s in
  let s :=
    if (currentInput s =? "") && negb (previousInput s =? "")
    then set_currentInput (previousInput s) s
    else s in
  if currentInput s =? "" then s
  else
    let s := set_previousInput (currentInput s) s in
    let s := set_operator op s in
    let s := set_currentInput "" s in
    let s := set_shouldResetDisplay true s in
    updateDisplay (previousInput s) s.

Definition calculateSquare (s : calc) : calc :=
  if currentInput s =? "" then s
  else
    let number := JS.parseFloat (currentInput s) in
    let result := JS.mul number number in
    let formattedResult := round8 result in
    let s := updateDisplay (JS.toString formattedResult) s in
    let s := set_currentInput (JS.toString formattedResult) s in
    set_shouldResetDisplay true s.

Definition toggleSign (s : calc) : calc :=
  if (currentInput s =? "") || (currentInput s =? "0") then s
  else
    let s :=
      if JS.startsWith (currentInput s) "-"
      then set_currentInput (JS.substring1 (currentInput s)) s
      else set_currentInput ("-" ++ currentInput s) s in
    updateDisplay (currentInput s) s.

(** The state part of [handleKeyboardInput]; [event.preventDefault()] acts on
    the event only. *)
Definition handleKeyboardInput (key : string) (s : calc) : calc :=
  if JS.includes "0123456789" key then appendNumber key s
  else if key =? "." then appendDecimal s
  else if JS.includes "+-*/%" key then appendOperator key s
  else if (key =? "=") || (key =? "Enter") then calculateResult s
  else if key =? "Escape" then clearAll s
  else if key =? "Backspace" then
    if (0 <? JS.length (currentInput s))%nat then
      let s := set_currentInput (JS.slice_0_m1 (currentInput s)) s in
      if (currentInput s =? "") || (currentInput s =? "-")
      then set_currentInput "" (updateDisplay "0" s)
      else updateDisplay (currentInput s) s
    else s
  else s.

(** [backspace()]: the [Backspace] branch of the keyboard handler. *)
Definition backspace (s : calc) : calc := handleKeyboardInput "Backspace" s.

(** ** The logical input events *)

Inductive digit : Set := D0 | D1 | D2 | D3 | D4 | D5 | D6 | D7 | D8 | D9.

Definition digit_key (d : digit) : string :=
  match d with
  | D0 => "0" | D1 => "1" | D2 => "2" | D3 => "3" | D4 => "4"
  | D5 => "5" | D6 => "6" | D7 => "7" | D8 => "8" | D9 => "9"
  end.

Inductive binop : Set := Add | Sub | Mul | Div | Mod.

Definition op_key (o : binop) : string :=
  match o with
  | Add => "+" | Sub => "-" | Mul => "*" | Div => "/" | Mod => "%"
  end.

(** What the operator computes on two numbers. *)
Definition apply_binop (o : binop) (prev current : JS.number) : JS.number :=
  match o with
  | Add => JS.add prev current
  | Sub => JS.sub prev current
  | Mul => JS.mul prev current
  | Div => JS.div prev current
  | Mod => JS.rem prev current
  end.

(** Divide and modulo are the operators with a zero check. *)
Definition checks_zero (o : binop) : bool :=
  match o with
  | Div | Mod => true
  | _ => false
  end.

Inductive event : Set :=
  | Digit (d : digit)
  | Decimal
  | Operator (o : binop)
  | Equals
  | Clear
  | Backspace
  | Square
  | ToggleSign.

(** The handler each event runs: the keyboard handler reaches the first six,
    the buttons of the page all eight. *)
Definition step (e : event) (s : calc) : calc :=
  match e with
  | Digit d => appendNumber (digit_key d) s
  | Decimal => appendDecimal s
  | Operator o => appendOperator (op_key o) s
  | Equals => calculateResult s
  | Clear => clearAll s
  | Backspace => backspace s
  | Square => calculateSquare s
  | ToggleSign => toggleSign s
  end.

Definition run (es : list event) (s : calc) : calc :=
  fold_left (fun s e => step e s) es s.

Inductive reachable : calc -> Prop :=
  | reachable_init : reachable init
  | reachable_step : forall e s, reachable s -> reachable (step e s).

(** ** Predicates on the entry string *)

(** How many ['.'] the string holds. *)
Fixpoint count_dot (s : string) : nat :=
  match s with
  | EmptyString => 0
  | String c s' => (if Ascii.eqb c "." then 1 else 0) + count_dot s'
  end.

Fixpoint string_forall (P : ascii -> bool) (s : string) : bool :=
  match s with
  | EmptyString => true
  | String c s' => P c && string_forall P s'
  end.

(** Entry invariant of the data model. *)
Definition entry_wf (s : string) : Prop :=
  count_dot s <= 1 /\ JS.startsWith s "--" = false.

(** Operator invariant of the data model. *)
Definition operator_wf (s : calc) : Prop :=
  operator s <> "" -> previousInput s <> "".

(** The entry [backspace()] leaves, from the entry it finds. *)
Definition shortened (entry : string) : string :=
  let t := JS.slice_0_m1 entry in
  if (t =? "") || (t =? "-") then "" else t.

(** The round trip the specification states for [chooseOperator('+')]
    followed by [evaluate()]: the pending operand becomes the entry again
    and is what [evaluate()] shows. *)
Definition roundtrip_claim (s : calc) : Prop :=
  let s1 := appendOperator "+" s in
  let s2 := calculateResult s1 in
  currentInput s2 = previousInput s1
  /\ display s2 = previousInput s1 :: display s1.

(** ** The rest of the script *)

(** The listener for [error] events on [window], up to the timer it starts
    (whose callback writes ["0"] to the display). *)
Definition onWindowError (s : calc) : calc :=
  updateDisplay "Error" (clearAll s).

(** The key that runs each event through [handleKeyboardInput]; squaring and
    the sign change are on buttons only. *)
Definition event_key (e : event) : option string :=
  match e with
  | Digit d => Some (digit_key d)
  | Decimal => Some "."
  | Operator o => Some (op_key o)
  | Equals => Some "="
  | Clear => Some "Escape"
  | Backspace => Some "Backspace"
  | Square | ToggleSign => None
  end.

Definition run_keys (keys : list string) (s : calc) : calc :=
  fold_left (fun s k => handleKeyboardInput k s) keys s.

(** The characters [handleKeyboardInput] reacts to when they are the whole
    key. *)
Definition calculator_char (c : ascii) : bool :=
  JS.includes "0123456789+-*/.%=" (String c "").

(** *** [formatNumber]

    The regular expression [/\B(?=(\d{3})+(?!\d))/g] matches the empty
    string at every position that is not a word boundary and is followed by
    a run of digits, as long as it can be, whose length is a positive
    multiple of three; [replace] puts a [","] at each such position. *)

(** [\w] *)
Definition is_word (c : ascii) : bool :=
  let n := nat_of_ascii c in
  JS.is_digit c
  || ((65 <=? n)%nat && (n <=? 90)%nat)
  || ((97 <=? n)%nat && (n <=? 122)%nat)
  || (n =? 95)%nat.

(** The length of the longest run of digits at the head of [s]. *)
Fixpoint digit_run (s : string) : nat :=
  match s with
  | String c t => if JS.is_digit c then S (digit_run t) else 0
  | EmptyString => 0
  end.

(** The lookahead [(?=(\d{3})+(?!\d))] at the head of [s]. *)
Definition group_ahead (s : string) : bool :=
  (3 <=? digit_run s)%nat && (digit_run s mod 3 =? 0)%nat.

(** The replacement, left to right; [prev_word] tells whether the character
    before the position is a word character (it is not at the start). *)
Fixpoint insert_commas (prev_word : bool) (s : string) : string :=
  match s with
  | EmptyString => EmptyString
  | String c t =>
      let rest := String c (insert_commas (is_word c) t) in
      if Bool.eqb prev_word (is_word c) && group_ahead s
      then String "," rest
      else rest
  end.

Definition formatNumber (num : JS.number) : string :=
  insert_commas false (JS.toString num).

(** The string without its commas. *)
Fixpoint remove_commas (s : string) : string :=
  match s with
  | EmptyString => EmptyString
  | String c t =>
      if Ascii.eqb c "," then remove_commas t else String c (remove_commas t)
  end.

Definition not_comma (c : ascii) : bool := negb (Ascii.eqb c ",").

(** The last character of [s] is a word character. *)
Fixpoint ends_with_word (s : string) : bool :=
  match s with
  | EmptyString => false
  | String c EmptyString => is_word c
  | String _ t => ends_with_word t
  end.

(** ** Further predicates *)

(** The same state with [h] as the older part of the display history. *)
Definition append_history (h : list string) (s : calc) : calc :=
  mkCalc (currentInput s) (previousInput s) (operator s)
         (shouldResetDisplay s) (display s ++ h).

(** The display shows the entry; with an empty entry it shows ["0"] or the
    pending operand. *)
Definition display_ok (s : calc) : Prop :=
  display_value s = currentInput s
  \/ (currentInput s = ""
      /\ (display_value s = "0" \/ display_value s = previousInput s)).

(** Nothing is pending, or one of the five operators is, with an operand. *)
Definition pending_ok (s : calc) : Prop :=
  (operator s = "" /\ previousInput s = "")
  \/ (exists o, operator s = op_key o) /\ previousInput s <> "".

(** The result rounded to 8 decimal digits, following the words of the
    specification and not the code: [result * 10 ^ 8] is rounded to the
    nearest integer (a tie goes up) as a real number, with no rounding in
    between, and the Number value of that integer over [10 ^ 8] is taken. *)
Definition round8_exact (x : JS.number) : JS.number :=
  match x with
  | S754_finite s m e =>
      let '(num, den) := JS.ratio_of m e in
      let N := if s then (- num)%Z else num in
      let q := ((2 * N * 10 ^ 8 + den) / (2 * den))%Z in
      match q with
      | Z0 => S754_zero s
      | Zpos p => JS.of_ratio p (10 ^ 8)
      | Zneg p => SFopp (JS.of_ratio p (10 ^ 8))
      end
  | _ => x
  end.

(** The digits typed, as one string. *)
Fixpoint digits_string (ds : list digit) : string :=
  match ds with
  | [] => ""
  | d :: ds' => digit_key d ++ digits_string ds'
  end.

(** The sign of a number: set for negative numbers and for [-0]. *)
Definition sign_bit (x : JS.number) : bool :=
  match x with
  | S754_zero s | S754_infinity s | S754_finite s _ _ => s
  | S754_nan => false
  end.

(** The first character is neither white space nor a sign: [parseFloat]
    starts reading the number at it. *)
Definition plain_head (s : string) : bool :=
  match s with
  | String c _ =>
      negb (JS.is_space c) && negb (Ascii.eqb c "-") && negb (Ascii.eqb c "+")
  | EmptyString => true
  end.

(** ** Keyboard dispatch *)

Lemma key_digit (d : digit) (s : calc) :
  handleKeyboardInput (digit_key d) s = appendNumber (digit_key d) s.
Proof. destruct d; reflexivity. Qed.

Lemma key_operator (o : binop) (s : calc) :
  handleKeyboardInput (op_key o) s = appendOperator (op_key o) s.
Proof. destruct o; reflexivity. Qed.

Lemma key_decimal (s : calc) : handleKeyboardInput "." s = appendDecimal s.
Proof. reflexivity. Qed.

Lemma key_equals (s : calc) :
  handleKeyboardInput "=" s = calculateResult s
  /\ handleKeyboardInput "Enter" s = calculateResult s.
Proof. split; reflexivity. Qed.

Lemma key_escape (s : calc) : handleKeyboardInput "Escape" s = clearAll s.
Proof. reflexivity. Qed.

(** ** The run-time model on known values *)

Example parseFloat_values :
  JS.parseFloat "0.1" = S754_finite false 7205759403792794 (-56)
  /\ JS.parseFloat "-12.5e-3px" = S754_finite true 7205759403792794 (-59)
  /\ JS.parseFloat "1e+" = S754_finite false 4503599627370496 (-52)
  /\ JS.parseFloat "9007199254740993" = S754_finite false 4503599627370496 1
  /\ JS.parseFloat "-0" = S754_zero true
  /\ JS.parseFloat "-Infinity" = S754_infinity true
  /\ JS.parseFloat "Infinit" = JS.NaN
  /\ JS.parseFloat "." = JS.NaN
  /\ JS.parseFloat "" = JS.NaN.
Proof. vm_compute. repeat split. Qed.

Example toString_values :
  map (fun s => JS.toString (JS.parseFloat s))
      ["123"; "123.456"; "0.000001"; "0.0000001"; "1e21"; "-42.50";
       "123456789012345678901"; "1e23"; "5e-324"; "Infinity"; "x"; "-0"]
  = ["123"; "123.456"; "0.000001"; "1e-7"; "1e+21"; "-42.5";
     "123456789012345680000"; "1e+23"; "5e-324"; "Infinity"; "NaN"; "0"].
Proof. vm_compute. reflexivity. Qed.

Example Math_round_values :
  map (fun s => JS.toString (JS.Math_round (JS.parseFloat s)))
      ["2.5"; "-2.5"; "2.4"; "-2.6"; "0.49999999999999994"; "1e300"]
  = ["3"; "-2"; "2"; "-3"; "0"; "1e+300"]
  /\ JS.Math_round (JS.parseFloat "-0.5") = S754_zero true.
Proof. vm_compute. split; reflexivity. Qed.

Example rem_values :
  map (fun p => JS.toString (JS.rem (JS.parseFloat (fst p))
                                    (JS.parseFloat (snd p))))
      [("7", "3"); ("-7", "3"); ("7", "-3"); ("5.5", "2"); ("1", "0");
       ("3", "Infinity")]
  = ["1"; "-1"; "1"; "1.5"; "NaN"; "3"].
Proof. vm_compute. reflexivity. Qed.

(** The full scenario 12 * 3 = 36, then digit 5. *)
Example scenario_12_times_3 :
  run [Digit D1; Digit D2; Operator Mul; Digit D3; Equals] init
  = mkCalc "36" "" "" true ["36"; "3"; "12"; "12"; "1"; "0"]
  /\ currentInput
       (run [Digit D1; Digit D2; Operator Mul; Digit D3; Equals; Digit D5]
            init) = "5".
Proof. vm_compute. split; reflexivity. Qed.

(** ** Proof support *)

Arguments JS.parseFloat : simpl never.
Arguments JS.toString : simpl never.
Arguments JS.Math_round : simpl never.
Arguments JS.rem : simpl never.
Arguments JS.of_Z : simpl never.

(** Unfold the field setters and reduce the projections they meet. *)
Ltac fields :=
  cbn [currentInput previousInput operator shouldResetDisplay display
       set_currentInput set_previousInput set_operator
       set_shouldResetDisplay updateDisplay] in *.

Lemma eqb_false (a b : string) : a <> b -> (a =? b) = false.
Proof. apply String.eqb_neq. Qed.

Lemma length_pos (s : string) : s <> "" -> (0 <? JS.length s)%nat = true.
Proof. destruct s; [congruence | reflexivity]. Qed.

Lemma slice_0_m1_last (s : string) :
  s <> "" -> exists c, s = JS.slice_0_m1 s ++ String c "".
Proof.
  induction s as [|a s IH]; [congruence | intros _].
  destruct s as [|b s].
  - exists a. reflexivity.
  - destruct IH as [c Hc]; [discriminate |].
    exists c. change (JS.slice_0_m1 (String a (String b s)))
      with (String a (JS.slice_0_m1 (String b s))).
    cbn [append]. rewrite <- Hc. reflexivity.
Qed.

Lemma backspace_eq (s : calc) :
  backspace s =
  if (0 <? JS.length (currentInput s))%nat then
    if (JS.slice_0_m1 (currentInput s) =? "")
       || (JS.slice_0_m1 (currentInput s) =? "-")
    then mkCalc "" (previousInput s) (operator s) (shouldResetDisplay s)
                ("0" :: display s)
    else mkCalc (JS.slice_0_m1 (currentInput s)) (previousInput s)
                (operator s) (shouldResetDisplay s)
                (JS.slice_0_m1 (currentInput s) :: display s)
  else s.
Proof.
  unfold backspace, handleKeyboardInput.
  change (JS.includes "0123456789" "Backspace") with false.
  change (JS.includes "+-*/%" "Backspace") with false.
  change ("Backspace" =? ".") with false.
  change (("Backspace" =? "=") || ("Backspace" =? "Enter")) with false.
  change ("Backspace" =? "Escape") with false.
  change ("Backspace" =? "Backspace") with true.
  cbv iota. fields.
  destruct (0 <? JS.length (currentInput s))%nat; [| reflexivity].
  destruct ((JS.slice_0_m1 (currentInput s) =? "")
            || (JS.slice_0_m1 (currentInput s) =? "-")); reflexivity.
Qed.

Lemma backspace_entry (s : calc) :
  currentInput (backspace s) = shortened (currentInput s).
Proof.
  rewrite backspace_eq. unfold shortened.
  destruct (currentInput s) as [|c t] eqn:E; [exact E |].
  change (0 <? JS.length (String c t))%nat with true. cbv iota.
  destruct ((JS.slice_0_m1 (String c t) =? "")
            || (JS.slice_0_m1 (String c t) =? "-")); reflexivity.
Qed.

Lemma backspace_flag (s : calc) :
  shouldResetDisplay (backspace s) = shouldResetDisplay s.
Proof.
  rewrite backspace_eq.
  destruct (0 <? JS.length (currentInput s))%nat; [| reflexivity].
  destruct ((JS.slice_0_m1 (currentInput s) =? "")
            || (JS.slice_0_m1 (currentInput s) =? "-")); reflexivity.
Qed.

(** The zero-division branch of [calculateResult]. *)
Lemma calculateResult_zero (s : calc) :
  previousInput s <> "" -> currentInput s <> "" ->
  operator s = "/" \/ operator s = "%" ->
  JS.strict_eq (JS.parseFloat (currentInput s)) JS.pos_zero = true ->
  calculateResult s = mkCalc "" "" "" false ("0" :: "Error" :: display s).
Proof.
  intros Hp Hc Ho Hz. unfold calculateResult.
  rewrite (eqb_false _ _ Hp), (eqb_false _ _ Hc).
  destruct Ho as [Ho | Ho]; rewrite Ho; cbn [String.eqb Ascii.eqb Bool.eqb orb];
    cbv iota; rewrite Hz; reflexivity.
Qed.

(** The committing branch of [calculateResult]. *)
Lemma calculateResult_commit (s : calc) (o : binop) :
  previousInput s <> "" -> currentInput s <> "" ->
  operator s = op_key o ->
  (checks_zero o = true ->
   JS.strict_eq (JS.parseFloat (currentInput s)) JS.pos_zero = false) ->
  calculateResult s =
  commitResult (apply_binop o (JS.parseFloat (previousInput s))
                              (JS.parseFloat (currentInput s))) s.
Proof.
  intros Hp Hc Ho Hz. unfold calculateResult.
  rewrite (eqb_false _ _ Hp), (eqb_false _ _ Hc), Ho.
  destruct o; cbn [op_key String.eqb Ascii.eqb Bool.eqb orb apply_binop];
    cbv iota; try reflexivity; rewrite Hz; reflexivity.
Qed.

(** [calculateResult] returns at its guard, clears, commits, or returns at
    the [default] of its [switch]. *)
Lemma calculateResult_cases (s : calc) :
  calculateResult s = s
  \/ calculateResult s = clearAll (updateDisplay "Error" s)
  \/ exists r, calculateResult s = commitResult r s.
Proof.
  unfold calculateResult.
  destruct ((previousInput s =? "") || (currentInput s =? "")
            || (operator s =? "")); [now left |].
  repeat match goal with
  | |- context [if ?b then _ else _] => destruct b
  end; eauto.
Qed.

(** ** Division and modulo by zero *)

(** C1: when the pending operand, the entry and the operator are all present,
    the operator is divide or modulo and the entry parses to exactly zero,
    [calculateResult] writes ["Error"] to the display and leaves all four
    state fields at their initial values: no result is stored. *)
Theorem calculateResult_zero_resets (s : calc) :
  previousInput s <> "" -> currentInput s <> "" ->
  operator s = "/" \/ operator s = "%" ->
  JS.strict_eq (JS.parseFloat (currentInput s)) JS.pos_zero = true ->
  (exists later, display (calculateResult s) = (later ++ "Error" :: display s)%list)
  /\ currentInput (calculateResult s) = currentInput init
  /\ previousInput (calculateResult s) = previousInput init
  /\ operator (calculateResult s) = operator init
  /\ shouldResetDisplay (calculateResult s) = shouldResetDisplay init.
Proof.
  intros Hp Hc Ho Hz.
  rewrite (calculateResult_zero s Hp Hc Ho Hz). cbn.
  split; [exists ["0"]; reflexivity | repeat split].
Qed.

Lemma calculateResult_zero_resets_witness :
  let s := run [Digit D5; Operator Div; Digit D0] init in
  currentInput (calculateResult s) = ""
  /\ previousInput (calculateResult s) = ""
  /\ operator (calculateResult s) = ""
  /\ shouldResetDisplay (calculateResult s) = false.
Proof.
  intro s.
  apply (calculateResult_zero_resets s); vm_compute;
    first [discriminate | reflexivity | left; reflexivity].
Defined.

(** C9: on a division or modulo by zero the write of ["Error"] is followed
    at once by the write of ["0"] that [clearAll] makes, so the display
    shows ["0"] when [calculateResult] returns. *)
Theorem calculateResult_zero_display (s : calc) :
  previousInput s <> "" -> currentInput s <> "" ->
  operator s = "/" \/ operator s = "%" ->
  JS.strict_eq (JS.parseFloat (currentInput s)) JS.pos_zero = true ->
  display (calculateResult s) = "0" :: "Error" :: display s
  /\ display_value (calculateResult s) = "0"
  /\ display_value (calculateResult s) <> "Error".
Proof.
  intros Hp Hc Ho Hz.
  rewrite (calculateResult_zero s Hp Hc Ho Hz).
  repeat split. discriminate.
Qed.

Lemma calculateResult_zero_display_witness :
  let s := run [Digit D7; Operator Mod; Digit D0; Decimal; Digit D0] init in
  display (calculateResult s) = "0" :: "Error" :: display s
  /\ display_value (calculateResult s) = "0"
  /\ display_value (calculateResult s) <> "Error".
Proof.
  intro s.
  apply (calculateResult_zero_display s); vm_compute;
    first [discriminate | reflexivity | right; reflexivity].
Defined.

(** ** Digits *)

(** C4: for every digit [d], [appendNumber] starts from an empty entry with
    the flag unset when the flag was set; on entry ["0"] it does nothing for
    [d = 0] and replaces the entry for another digit; otherwise it appends
    the digit; and it shows the new entry.  The digits 0, 0, 5 from the
    initial state leave the entry ["5"]. *)
Theorem appendNumber_spec (d : digit) (s : calc) :
  (shouldResetDisplay s = true ->
   appendNumber (digit_key d) s =
   mkCalc (digit_key d) (previousInput s) (operator s) false
          (digit_key d :: display s))
  /\ (shouldResetDisplay s = false -> currentInput s = "0" -> d = D0 ->
      appendNumber (digit_key d) s = s)
  /\ (shouldResetDisplay s = false -> currentInput s = "0" -> d <> D0 ->
      appendNumber (digit_key d) s =
      mkCalc (digit_key d) (previousInput s) (operator s) false
             (digit_key d :: display s))
  /\ (shouldResetDisplay s = false -> currentInput s <> "0" ->
      appendNumber (digit_key d) s =
      mkCalc (currentInput s ++ digit_key d) (previousInput s) (operator s)
             false ((currentInput s ++ digit_key d) :: display s))
  /\ currentInput (run [Digit D0; Digit D0; Digit D5] init) = "5".
Proof.
  destruct s as [cur prev op flag disp]. fields.
  repeat split.
  - intros ->. unfold appendNumber. fields. reflexivity.
  - intros -> -> ->. reflexivity.
  - intros -> -> Hd. destruct d; try congruence; reflexivity.
  - intros -> Hc. unfold appendNumber. fields.
    rewrite (eqb_false _ _ Hc). reflexivity.
Qed.

Lemma appendNumber_spec_witness :
  appendNumber "7" (mkCalc "36" "" "" true ["36"]) =
    mkCalc "7" "" "" false ["7"; "36"]
  /\ appendNumber "0" (mkCalc "0" "" "" false ["0"]) =
     mkCalc "0" "" "" false ["0"]
  /\ appendNumber "7" (mkCalc "0" "" "" false ["0"]) =
     mkCalc "7" "" "" false ["7"; "0"]
  /\ appendNumber "7" (mkCalc "12" "" "" false ["12"]) =
     mkCalc "127" "" "" false ["127"; "12"].
Proof.
  split; [| split; [| split]].
  - apply (proj1 (appendNumber_spec D7 (mkCalc "36" "" "" true ["36"]))).
    reflexivity.
  - apply (proj1 (proj2 (appendNumber_spec D0 (mkCalc "0" "" "" false ["0"]))));
      reflexivity.
  - apply (proj1 (proj2 (proj2
             (appendNumber_spec D7 (mkCalc "0" "" "" false ["0"])))));
      [reflexivity | reflexivity | discriminate].
  - apply (proj1 (proj2 (proj2 (proj2
             (appendNumber_spec D7 (mkCalc "12" "" "" false ["12"]))))));
      [reflexivity | discriminate].
Defined.

(** ** Backspace *)

(** C8: [backspace] does nothing on an empty entry; otherwise it drops the
    last character of the entry, and when what is left is empty or ["-"] it
    shows ["0"] and empties the entry, else it shows what is left.  Entry
    ["12"] becomes ["1"]; entry ["1"] becomes [""] with ["0"] shown. *)
Theorem backspace_spec (s : calc) :
  (currentInput s = "" -> backspace s = s)
  /\ (currentInput s <> "" ->
      exists t c,
        currentInput s = t ++ String c ""
        /\ (t = "" \/ t = "-" ->
            backspace s =
            mkCalc "" (previousInput s) (operator s) (shouldResetDisplay s)
                   ("0" :: display s))
        /\ (t <> "" -> t <> "-" ->
            backspace s =
            mkCalc t (previousInput s) (operator s) (shouldResetDisplay s)
                   (t :: display s)))
  /\ (currentInput s = "12" ->
      currentInput (backspace s) = "1" /\ display_value (backspace s) = "1")
  /\ (currentInput s = "1" ->
      currentInput (backspace s) = "" /\ display_value (backspace s) = "0").
Proof.
  repeat split.
  - intro H. rewrite backspace_eq, H. reflexivity.
  - intro H. destruct (slice_0_m1_last _ H) as [c Hc].
    exists (JS.slice_0_m1 (currentInput s)), c.
    split; [exact Hc |].
    rewrite backspace_eq, (length_pos _ H).
    split.
    + intros [-> | ->]; reflexivity.
    + intros H1 H2. rewrite (eqb_false _ _ H1), (eqb_false _ _ H2).
      reflexivity.
  - rewrite backspace_eq, H. reflexivity.
  - rewrite backspace_eq, H. reflexivity.
  - rewrite backspace_eq, H. reflexivity.
  - rewrite backspace_eq, H. reflexivity.
Qed.

Lemma backspace_spec_witness :
  backspace init = init
  /\ currentInput (backspace (run [Digit D1; Digit D2] init)) = "1"
  /\ display_value (backspace (run [Digit D1] init)) = "0".
Proof.
  split; [| split].
  - apply (proj1 (backspace_spec init)). reflexivity.
  - apply (proj1 (proj2 (proj2 (backspace_spec (run [Digit D1; Digit D2] init))))).
    reflexivity.
  - apply (proj2 (proj2 (proj2 (backspace_spec (run [Digit D1] init))))).
    reflexivity.
Defined.

(** ** Operator followed by equals *)

Lemma appendOperator_fresh (op : string) (s : calc) :
  currentInput s <> "" -> previousInput s = "" ->
  appendOperator op s =
  mkCalc "" (currentInput s) op true (currentInput s :: display s).
Proof.
  destruct s as [cur prev o flag disp]. fields. intros Hc ->.
  unfold appendOperator. fields.
  repeat (progress (rewrite ?String.eqb_refl, ?(eqb_false _ _ Hc);
                    cbn [negb andb]; fields)).
  reflexivity.
Qed.

(** C2, as stated, fails: after ["5"] and [+], [calculateResult] returns at
    its guard, so the entry stays empty and nothing is shown. *)
Lemma roundtrip_counterexample : ~ roundtrip_claim (run [Digit D5] init).
Proof.
  unfold roundtrip_claim. vm_compute. intros [H _]. discriminate H.
Qed.

(** C2, amended: from a state with an entry and nothing pending,
    [appendOperator "+"] moves the entry to the pending operand and shows
    it, and [calculateResult] right after is a no-op: the entry stays empty,
    the operand and the operator stay pending, the flag stays set, and
    nothing is written to the display. *)
Theorem operator_then_equals (s : calc) :
  currentInput s <> "" -> previousInput s = "" -> operator s = "" ->
  let s1 := appendOperator "+" s in
  calculateResult s1 = s1
  /\ currentInput s1 = ""
  /\ previousInput s1 = currentInput s
  /\ operator s1 = "+"
  /\ shouldResetDisplay s1 = true
  /\ display s1 = currentInput s :: display s.
Proof.
  intros Hc Hp _ s1. subst s1.
  rewrite (appendOperator_fresh "+" s Hc Hp).
  repeat split. unfold calculateResult. fields.
  rewrite orb_true_r. reflexivity.
Qed.

Lemma operator_then_equals_witness :
  let s1 := appendOperator "+" (run [Digit D5] init) in
  calculateResult s1 = s1
  /\ currentInput s1 = ""
  /\ previousInput s1 = "5"
  /\ operator s1 = "+"
  /\ shouldResetDisplay s1 = true
  /\ display s1 = ["5"; "5"; "0"].
Proof.
  apply (operator_then_equals (run [Digit D5] init));
    [discriminate | reflexivity | reflexivity].
Defined.

(** ** Repeated equals *)

Lemma calculateResult_no_operand (s : calc) :
  previousInput s = "" -> calculateResult s = s.
Proof. intro H. unfold calculateResult. rewrite H. reflexivity. Qed.

(** C7: for every state, a second [calculateResult] right after the first
    changes no field and writes nothing; and whenever the first call did
    anything, it left the operator empty. *)
Theorem calculateResult_idempotent (s : calc) :
  calculateResult (calculateResult s) = calculateResult s
  /\ (calculateResult s <> s -> operator (calculateResult s) = "").
Proof.
  destruct (calculateResult_cases s) as [H | [H | [r H]]].
  - split; [rewrite H; exact H | congruence].
  - rewrite H. split; [apply calculateResult_no_operand |]; reflexivity.
  - rewrite H. split; [apply calculateResult_no_operand |]; reflexivity.
Qed.

Lemma calculateResult_idempotent_witness :
  operator
    (calculateResult (run [Digit D1; Operator Add; Digit D2] init)) = "".
Proof.
  apply (proj2 (calculateResult_idempotent
                  (run [Digit D1; Operator Add; Digit D2] init))).
  vm_compute. discriminate.
Defined.

(** ** The operator invariant *)

Lemma appendOperator_operand (o : binop) (s : calc) :
  appendOperator (op_key o) s = s
  \/ appendOperator (op_key o) s = calculateResult s
  \/ (currentInput (appendOperator (op_key o) s) = ""
      /\ previousInput (appendOperator (op_key o) s) <> "").
Proof.
  unfold appendOperator. cbv zeta.
  set (s1 := if negb (currentInput s =? "") && negb (previousInput s =? "")
                && negb (operator s =? "")
             then calculateResult s else s).
  assert (H1 : s1 = calculateResult s \/ s1 = s).
  { subst s1. destruct (_ && _); [left | right]; reflexivity. }
  clearbody s1.
  set (s2 := if (currentInput s1 =? "") && negb (previousInput s1 =? "")
             then set_currentInput (previousInput s1) s1 else s1).
  assert (H2 : currentInput s2 = "" -> s2 = s1).
  { subst s2. destruct (String.eqb_spec (currentInput s1) "") as [E | E];
      destruct (String.eqb_spec (previousInput s1) "") as [P | P];
      cbn [andb negb]; fields; congruence. }
  clearbody s2.
  destruct (String.eqb_spec (currentInput s2) "") as [E | E].
  - rewrite (H2 E). destruct H1 as [-> | ->]; [right; left | left]; reflexivity.
  - right; right. fields. split; [reflexivity | exact E].
Qed.

Lemma operator_wf_calculateResult (s : calc) :
  operator_wf s -> operator_wf (calculateResult s).
Proof.
  intro H. destruct (calculateResult_cases s) as [E | [E | [r E]]];
    rewrite E; [exact H | |]; intro C; exfalso; apply C; reflexivity.
Qed.

Lemma operator_wf_step (e : event) (s : calc) :
  operator_wf s -> operator_wf (step e s).
Proof.
  intro H. destruct e; cbn [step].
  - unfold appendNumber, operator_wf in *.
    destruct s as [cur prev op flag disp]. fields.
    destruct flag; fields;
      repeat match goal with
      | |- context [if ?b then _ else _] => destruct b
      end; fields; exact H.
  - unfold appendDecimal, operator_wf in *.
    destruct s as [cur prev op flag disp]. fields.
    destruct flag; fields;
      repeat match goal with
      | |- context [if ?b then _ else _] => destruct b; fields
      end; exact H.
  - destruct (appendOperator_operand o s) as [E | [E | [_ E]]].
    + rewrite E. exact H.
    + rewrite E. apply operator_wf_calculateResult, H.
    + intros _. exact E.
  - apply operator_wf_calculateResult, H.
  - intro C. exfalso. apply C. reflexivity.
  - unfold operator_wf. rewrite backspace_eq.
    repeat match goal with
    | |- context [if ?b then _ else _] => destruct b
    end; exact H.
  - unfold calculateSquare, operator_wf in *.
    destruct (currentInput s =? ""); fields; exact H.
  - unfold toggleSign, operator_wf in *.
    repeat match goal with
    | |- context [if ?b then _ else _] => destruct b; fields
    end; exact H.
Qed.

(** C6: in every reachable state the operator is set only while the pending
    operand is non-empty, and every operation preserves this, from any state
    where it holds. *)
Theorem operator_wf_invariant :
  (forall s, reachable s -> operator_wf s)
  /\ (forall e s, operator_wf s -> operator_wf (step e s)).
Proof.
  split; [| exact operator_wf_step].
  induction 1 as [| e s _ IH].
  - intro C. exfalso. apply C. reflexivity.
  - apply operator_wf_step, IH.
Qed.

Lemma operator_wf_invariant_witness :
  operator_wf (step (Operator Mul) (step (Digit D4) init))
  /\ operator_wf (step Equals (mkCalc "2" "3" "*" false ["2"])).
Proof.
  split.
  - apply (proj1 operator_wf_invariant).
    apply reachable_step, reachable_step, reachable_init.
  - apply (proj2 operator_wf_invariant).
    intros _. discriminate.
Defined.

(** ** Rounding of the result *)

(** The rounding step as the code computes it: when [calculateResult]
    computes a result, the entry and the display receive the string of
    [Math.round(result * 100000000) / 100000000], every operation of which
    is rounded to binary64; the pending operand and operator are cleared and
    the flag is set.  Entries ["0.1"] and ["0.2"] with [+] give ["0.3"],
    where the unrounded sum prints as ["0.30000000000000004"]. *)
Theorem calculateResult_rounds :
  (forall (s : calc) (o : binop),
      previousInput s <> "" -> currentInput s <> "" ->
      operator s = op_key o ->
      (checks_zero o = true ->
       JS.strict_eq (JS.parseFloat (currentInput s)) JS.pos_zero = false) ->
      let result :=
        apply_binop o (JS.parseFloat (previousInput s))
                      (JS.parseFloat (currentInput s)) in
      let rounded :=
        JS.div (JS.Math_round (JS.mul result (JS.of_Z 100000000)))
               (JS.of_Z 100000000) in
      calculateResult s =
      mkCalc (JS.toString rounded) "" "" true
             (JS.toString rounded :: display s))
  /\ (let s := run [Digit D0; Decimal; Digit D1; Operator Add;
                    Digit D0; Decimal; Digit D2] init in
      previousInput s = "0.1" /\ currentInput s = "0.2" /\ operator s = "+"
      /\ currentInput (calculateResult s) = "0.3"
      /\ display_value (calculateResult s) = "0.3"
      /\ JS.toString (JS.add (JS.parseFloat "0.1") (JS.parseFloat "0.2"))
         = "0.30000000000000004").
Proof.
  split.
  - intros s o Hp Hc Ho Hz result rounded.
    rewrite (calculateResult_commit s o Hp Hc Ho Hz). reflexivity.
  - vm_compute. repeat split.
Qed.

Lemma calculateResult_rounds_witness :
  calculateResult (mkCalc "3" "12" "*" false ["3"]) =
  mkCalc "36" "" "" true ["36"; "3"].
Proof.
  refine (eq_trans
            (proj1 calculateResult_rounds (mkCalc "3" "12" "*" false ["3"])
                   Mul _ _ _ _) _);
    vm_compute; first [discriminate | reflexivity].
Defined.

(** C3: the entry is not always the result rounded to 8 decimal digits.
    For 57121 * 529549 the product is exactly 30248368429, and so is its
    rounding to 8 decimal digits; but [result * 100000000] is above
    [2 ^ 53] and is rounded, and [calculateResult] stores and shows
    ["30248368428.999996"].  For ["0.1"] and ["0.2"] with [+] the code and
    the rounding to 8 decimal digits agree on ["0.3"]. *)
Theorem calculateResult_rounding_noise :
  (let s := run [Digit D5; Digit D7; Digit D1; Digit D2; Digit D1;
                 Operator Mul;
                 Digit D5; Digit D2; Digit D9; Digit D5; Digit D4; Digit D9]
                init in
   let result :=
     JS.mul (JS.parseFloat (previousInput s))
            (JS.parseFloat (currentInput s)) in
   previousInput s = "57121" /\ currentInput s = "529549"
   /\ operator s = "*"
   /\ result = JS.of_Z 30248368429
   /\ JS.toString result = "30248368429"
   /\ JS.toString (round8_exact result) = "30248368429"
   /\ currentInput (calculateResult s) = "30248368428.999996"
   /\ display_value (calculateResult s) = "30248368428.999996"
   /\ currentInput (calculateResult s) <> JS.toString (round8_exact result))
  /\ (let s := run [Digit D0; Decimal; Digit D1; Operator Add;
                    Digit D0; Decimal; Digit D2] init in
      let result :=
        JS.add (JS.parseFloat (previousInput s))
               (JS.parseFloat (currentInput s)) in
      JS.toString result = "0.30000000000000004"
      /\ JS.toString (round8_exact result) = "0.3"
      /\ currentInput (calculateResult s) = "0.3").
Proof.
  split.
  - vm_compute. repeat split. discriminate.
  - vm_compute. repeat split.
Qed.

(** [Number.prototype.toString] never returns the empty string. *)

Lemma append_nonempty_l (a b : string) : a <> "" -> a ++ b <> "".
Proof. destruct a; [congruence | discriminate]. Qed.

Lemma append_nonempty_r (a b : string) : b <> "" -> a ++ b <> "".
Proof. destruct a; [trivial | discriminate]. Qed.

Lemma decimal_nonempty (n : N) : JS.decimal n <> "".
Proof.
  unfold JS.decimal, NilZero.string_of_uint.
  destruct (N.to_uint n); discriminate.
Qed.

Lemma format_decimal_nonempty (digits : string) (n : Z) :
  digits <> "" -> JS.format_decimal digits n <> "".
Proof.
  intro H. unfold JS.format_decimal.
  repeat match goal with
  | |- context [if ?b then _ else _] => destruct b
  end;
  first
    [ apply append_nonempty_l, H
    | apply append_nonempty_r; discriminate
    | discriminate ].
Qed.

Lemma toString_nonempty (x : JS.number) : JS.toString x <> "".
Proof.
  unfold JS.toString. destruct x as [sg | sg | | sg m e].
  - discriminate.
  - destruct sg; discriminate.
  - discriminate.
  - assert (H : fst (JS.shortest m e) <> "").
    { unfold JS.shortest.
      destruct (JS.shortest_from m e (JS.decimal_exponent m e) 1 17) as [k s].
      destruct (s =? 10 ^ k)%Z; apply decimal_nonempty. }
    destruct (JS.shortest m e) as [digits n]. cbn [fst] in H.
    apply append_nonempty_r, format_decimal_nonempty, H.
Qed.

(** ** Backspace after a result *)

Lemma appendNumber_after_reset (number : string) (s : calc) :
  shouldResetDisplay s = true ->
  appendNumber number s =
  mkCalc number (previousInput s) (operator s) false (number :: display s).
Proof.
  destruct s as [cur prev op flag disp]. fields. intros ->.
  unfold appendNumber. fields. reflexivity.
Qed.

(** C10: [backspace] neither reads nor writes the flag.  Right after
    [calculateResult] has stored a result, that result is some [t] followed
    by a last character; a backspace leaves [t] as the entry (the empty
    entry when [t] is empty or ["-"]) and leaves the flag set, so the next
    digit starts a new entry that is this digit alone. *)
Theorem backspace_keeps_flag :
  (forall (s : calc) (b : bool),
      backspace (set_shouldResetDisplay b s) =
      set_shouldResetDisplay b (backspace s))
  /\ (forall (s : calc) (o : binop) (d : digit),
         previousInput s <> "" -> currentInput s <> "" ->
         operator s = op_key o ->
         (checks_zero o = true ->
          JS.strict_eq (JS.parseFloat (currentInput s)) JS.pos_zero = false) ->
         let s1 := calculateResult s in
         let s2 := backspace s1 in
         let s3 := appendNumber (digit_key d) s2 in
         shouldResetDisplay s1 = true
         /\ (exists t c,
                currentInput s1 = t ++ String c ""
                /\ currentInput s2 =
                   if (t =? "") || (t =? "-") then "" else t)
         /\ shouldResetDisplay s2 = true
         /\ currentInput s3 = digit_key d
         /\ shouldResetDisplay s3 = false).
Proof.
  split.
  - intros s b. rewrite !backspace_eq. fields.
    repeat match goal with
    | |- context [if ?c then _ else _] => destruct c
    end; reflexivity.
  - intros s o d Hp Hc Ho Hz s1 s2 s3.
    assert (F1 : shouldResetDisplay s1 = true).
    { subst s1. rewrite (calculateResult_commit s o Hp Hc Ho Hz). reflexivity. }
    assert (N1 : currentInput s1 <> "").
    { subst s1. rewrite (calculateResult_commit s o Hp Hc Ho Hz).
      apply toString_nonempty. }
    assert (F2 : shouldResetDisplay s2 = true).
    { subst s2. rewrite backspace_flag. exact F1. }
    subst s3. rewrite (appendNumber_after_reset _ _ F2).
    repeat split; try assumption.
    destruct (slice_0_m1_last _ N1) as [c E].
    exists (JS.slice_0_m1 (currentInput s1)), c.
    split; [exact E |]. subst s2. apply backspace_entry.
Qed.

Lemma snoc_two (t : string) (c a b : ascii) :
  String a (String b "") = t ++ String c "" -> t = String a "".
Proof.
  destruct t as [|x [|y t]]; cbn [append]; intro E.
  - discriminate E.
  - injection E as -> _. reflexivity.
  - injection E as _ _ E. destruct t; discriminate E.
Qed.

Lemma backspace_keeps_flag_witness :
  let s1 := calculateResult (mkCalc "3" "12" "*" false ["3"]) in
  let s2 := backspace s1 in
  let s3 := appendNumber "5" s2 in
  currentInput s1 = "36"
  /\ currentInput s2 = "3"
  /\ shouldResetDisplay s2 = true
  /\ currentInput s3 = "5"
  /\ shouldResetDisplay s3 = false.
Proof.
  intros s1 s2 s3.
  assert (H1 : previousInput (mkCalc "3" "12" "*" false ["3"]) <> "")
    by discriminate.
  assert (H2 : currentInput (mkCalc "3" "12" "*" false ["3"]) <> "")
    by discriminate.
  assert (H4 : checks_zero Mul = true ->
               JS.strict_eq
                 (JS.parseFloat (currentInput (mkCalc "3" "12" "*" false ["3"])))
                 JS.pos_zero = false)
    by discriminate.
  destruct (proj2 backspace_keeps_flag (mkCalc "3" "12" "*" false ["3"])
                  Mul D5 H1 H2 eq_refl H4)
    as [_ [[t [c [Et E2]]] [F2 [E3 F3]]]].
  assert (E1 : currentInput s1 = "36") by (vm_compute; reflexivity).
  fold s1 in Et. rewrite E1 in Et.
  apply snoc_two in Et. subst t.
  repeat split; assumption.
Defined.

(** ** The entry invariant *)

Lemma count_dot_app (a b : string) :
  count_dot (a ++ b) = count_dot a + count_dot b.
Proof.
  induction a as [|c a IH]; [reflexivity |].
  cbn [append count_dot]. rewrite IH. lia.
Qed.

Section StringForall.

Variable P : ascii -> bool.

Lemma string_forall_app (a b : string) :
  string_forall P (a ++ b) = string_forall P a && string_forall P b.
Proof.
  induction a as [|c a IH]; [reflexivity |].
  cbn [append string_forall]. rewrite IH. apply andb_assoc.
Qed.

Lemma string_forall_substring (s : string) :
  string_forall P s = true ->
  forall n m, string_forall P (substring n m s) = true.
Proof.
  induction s as [|c s IH]; intros H n m.
  - destruct n, m; reflexivity.
  - cbn [string_forall] in H. apply andb_prop in H. destruct H as [Hc Hs].
    destruct n as [|n]; [destruct m as [|m] |]; cbn [substring].
    + reflexivity.
    + cbn [string_forall]. rewrite Hc. apply (IH Hs).
    + apply (IH Hs).
Qed.

End StringForall.

Lemma is_digit_not_dot (c : ascii) :
  JS.is_digit c = true -> Ascii.eqb c "." = false.
Proof.
  intro H. destruct (Ascii.eqb_spec c "."); [subst; discriminate | reflexivity].
Qed.

Lemma is_digit_not_minus (c : ascii) : JS.is_digit c = true -> "-"%char <> c.
Proof. intros H <-. discriminate. Qed.

Lemma digits_no_dot (s : string) :
  string_forall JS.is_digit s = true -> count_dot s = 0.
Proof.
  induction s as [|c s IH]; [reflexivity |].
  cbn [string_forall count_dot]. intro H. apply andb_prop in H.
  destruct H as [Hc Hs]. rewrite (is_digit_not_dot c Hc), (IH Hs).
  reflexivity.
Qed.

(** A string whose first run is made of digits does not start with ['-']
    when what follows the run does not. *)
Lemma digits_then_no_minus (a b : string) :
  string_forall JS.is_digit a = true ->
  JS.startsWith b "-" = false -> JS.startsWith (a ++ b) "-" = false.
Proof.
  destruct a as [|c a]; [trivial |].
  cbn [string_forall]. intros H _. apply andb_prop in H. destruct H as [Hc _].
  unfold JS.startsWith. cbn [append prefix].
  destruct (ascii_dec "-" c) as [E | E]; [| reflexivity].
  destruct (is_digit_not_minus c Hc E).
Qed.

Lemma digits_no_minus (a : string) :
  string_forall JS.is_digit a = true -> JS.startsWith a "-" = false.
Proof.
  destruct a as [|c a]; [reflexivity |].
  cbn [string_forall]. intro H. apply andb_prop in H. destruct H as [Hc _].
  unfold JS.startsWith. cbn [prefix].
  destruct (ascii_dec "-" c) as [E | E]; [| reflexivity].
  destruct (is_digit_not_minus c Hc E).
Qed.

Lemma uint_digits (d : Decimal.uint) :
  string_forall JS.is_digit (NilEmpty.string_of_uint d) = true.
Proof. induction d; cbn [NilEmpty.string_of_uint string_forall]; auto. Qed.

Lemma decimal_digits (n : N) : string_forall JS.is_digit (JS.decimal n) = true.
Proof.
  unfold JS.decimal, NilZero.string_of_uint.
  destruct (N.to_uint n); try apply uint_digits. reflexivity.
Qed.

Lemma zeros_digits (n : nat) : string_forall JS.is_digit (JS.zeros n) = true.
Proof. induction n; [reflexivity | exact IHn]. Qed.

(** What [Number.prototype.toString] can return. *)

Lemma format_decimal_dot (digits : string) (n : Z) :
  string_forall JS.is_digit digits = true ->
  count_dot (JS.format_decimal digits n) <= 1.
Proof.
  intro H. unfold JS.format_decimal.
  assert (Hsub : forall i j, count_dot (substring i j digits) = 0)
    by (intros; apply digits_no_dot, string_forall_substring, H).
  assert (Hz : forall k, count_dot (JS.zeros k) = 0)
    by (intros; apply digits_no_dot, zeros_digits).
  assert (He : forall k, count_dot (JS.decimal k) = 0)
    by (intros; apply digits_no_dot, decimal_digits).
  pose proof (digits_no_dot digits H) as Hd.
  repeat match goal with
  | |- context [if ?b then _ else _] => destruct b
  end;
  rewrite ?count_dot_app, ?Hsub, ?Hz, ?He, ?Hd; cbn [count_dot Ascii.eqb Bool.eqb];
  rewrite ?count_dot_app, ?Hsub, ?Hz, ?He, ?Hd; cbn; lia.
Qed.

Lemma format_decimal_minus (digits : string) (n : Z) :
  string_forall JS.is_digit digits = true ->
  JS.startsWith (JS.format_decimal digits n) "-" = false.
Proof.
  intro H. unfold JS.format_decimal.
  repeat match goal with
  | |- context [if ?b then _ else _] => destruct b
  end;
  first
    [ reflexivity
    | apply digits_then_no_minus;
      [first [exact H | apply string_forall_substring, H] |];
      first [reflexivity | apply digits_no_minus, zeros_digits] ].
Qed.

Lemma shortest_digits (m : positive) (e : Z) :
  string_forall JS.is_digit (fst (JS.shortest m e)) = true.
Proof.
  unfold JS.shortest.
  destruct (JS.shortest_from m e (JS.decimal_exponent m e) 1 17) as [k s].
  destruct (s =? 10 ^ k)%Z; apply decimal_digits.
Qed.

Lemma prefix_cons (a b : ascii) (p s : string) :
  prefix (String a p) (String b s) =
  if ascii_dec a b then prefix p s else false.
Proof. reflexivity. Qed.

Lemma prefix_nil (s : string) : prefix "" s = true.
Proof. destruct s; reflexivity. Qed.

Lemma no_minus_no_double (s : string) :
  JS.startsWith s "-" = false -> JS.startsWith s "--" = false.
Proof.
  unfold JS.startsWith. destruct s as [|c t]; [reflexivity |].
  rewrite !prefix_cons, prefix_nil.
  destruct (ascii_dec "-" c); [discriminate | reflexivity].
Qed.

Lemma minus_then_no_minus (s : string) :
  JS.startsWith s "-" = false -> JS.startsWith ("-" ++ s) "--" = false.
Proof.
  unfold JS.startsWith. cbn [append]. rewrite prefix_cons.
  destruct (ascii_dec "-" "-"); congruence.
Qed.

Lemma toString_wf (x : JS.number) : entry_wf (JS.toString x).
Proof.
  unfold entry_wf, JS.toString.
  destruct x as [sg | sg | | sg m e].
  - split; [cbn; lia | reflexivity].
  - destruct sg; split; first [cbn; lia | reflexivity].
  - split; [cbn; lia | reflexivity].
  - pose proof (shortest_digits m e) as H.
    destruct (JS.shortest m e) as [digits n]. cbn [fst] in H.
    pose proof (format_decimal_dot digits n H) as Hd.
    pose proof (format_decimal_minus digits n H) as Hm.
    destruct sg; cbn [append].
    + split; [exact Hd | apply minus_then_no_minus, Hm].
    + split; [exact Hd | apply no_minus_no_double, Hm].
Qed.

(** How the string methods the handlers use act on the invariant. *)

Lemma entry_wf_nil : entry_wf "".
Proof. split; [cbn; lia | reflexivity]. Qed.

Lemma startsWith_snoc (e : string) (c : ascii) :
  "-"%char <> c ->
  JS.startsWith e "--" = false ->
  JS.startsWith (e ++ String c "") "--" = false.
Proof.
  unfold JS.startsWith. intros Hc H.
  destruct e as [|a [|b t]]; cbn [append] in *.
  - rewrite prefix_cons. destruct (ascii_dec "-" c); [congruence | reflexivity].
  - rewrite !prefix_cons. destruct (ascii_dec "-" a); [| reflexivity].
    destruct (ascii_dec "-" c); [congruence | reflexivity].
  - rewrite !prefix_cons, prefix_nil in *. exact H.
Qed.

Lemma entry_wf_snoc (e : string) (c : ascii) :
  "-"%char <> c -> Ascii.eqb c "." = false ->
  entry_wf e -> entry_wf (e ++ String c "").
Proof.
  intros Hm Hd [H1 H2]. split.
  - rewrite count_dot_app. cbn [count_dot]. rewrite Hd. lia.
  - apply startsWith_snoc; assumption.
Qed.

Lemma entry_wf_digit (e : string) (d : digit) :
  entry_wf e -> entry_wf (e ++ digit_key d).
Proof. destruct d; apply entry_wf_snoc; (discriminate || reflexivity). Qed.

Lemma includes_dot (s : string) :
  JS.includes s "." = false -> count_dot s = 0.
Proof.
  induction s as [|c s IH]; [reflexivity |].
  cbn [JS.includes count_dot]. rewrite prefix_cons, prefix_nil.
  intro H. apply orb_false_elim in H. destruct H as [Hc Hs].
  rewrite (IH Hs). destruct (Ascii.eqb_spec c "."); [| reflexivity].
  subst c. destruct (ascii_dec "." "."); [discriminate | congruence].
Qed.

Lemma entry_wf_dot (e : string) :
  JS.includes e "." = false -> entry_wf e -> entry_wf (e ++ ".").
Proof.
  intros Hi [_ H2]. split.
  - rewrite count_dot_app, (includes_dot e Hi). cbn. lia.
  - apply startsWith_snoc; [discriminate | exact H2].
Qed.

Lemma count_dot_slice (s : string) :
  count_dot (JS.slice_0_m1 s) <= count_dot s.
Proof.
  induction s as [|c s IH]; [cbn; lia |].
  destruct s as [|c' s]; [cbn; lia |].
  change (JS.slice_0_m1 (String c (String c' s)))
    with (String c (JS.slice_0_m1 (String c' s))).
  cbn [count_dot] in *. lia.
Qed.

Lemma entry_wf_slice (e : string) : entry_wf e -> entry_wf (JS.slice_0_m1 e).
Proof.
  intros [H1 H2]. split.
  - pose proof (count_dot_slice e). lia.
  - unfold JS.startsWith in *.
    destruct e as [|a [|b [|c t]]]; try reflexivity.
    + cbn [JS.slice_0_m1]. rewrite prefix_cons.
      destruct (ascii_dec "-" a); reflexivity.
    + change (JS.slice_0_m1 (String a (String b (String c t))))
        with (String a (String b (JS.slice_0_m1 (String c t)))).
      rewrite !prefix_cons, prefix_nil in *. exact H2.
Qed.

Lemma entry_wf_shortened (e : string) : entry_wf e -> entry_wf (shortened e).
Proof.
  intro H. unfold shortened.
  destruct (_ || _); [apply entry_wf_nil | apply entry_wf_slice, H].
Qed.

Lemma entry_wf_strip (e : string) :
  JS.startsWith e "-" = true -> entry_wf e -> entry_wf (JS.substring1 e).
Proof.
  unfold entry_wf, JS.startsWith. intros Hs [H1 H2].
  destruct e as [|a t]; [discriminate Hs |].
  cbn [JS.substring1 count_dot] in *. split; [lia |].
  rewrite !prefix_cons, ?prefix_nil in *.
  destruct (ascii_dec "-" a); [| discriminate Hs].
  apply no_minus_no_double. exact H2.
Qed.

Lemma entry_wf_negate (e : string) :
  JS.startsWith e "-" = false -> entry_wf e -> entry_wf ("-" ++ e).
Proof.
  intros Hs [H1 _]. split.
  - cbn [append count_dot Ascii.eqb Bool.eqb]. exact H1.
  - apply minus_then_no_minus, Hs.
Qed.

(** Each handler keeps the entry well formed. *)

Lemma entry_wf_appendNumber (d : digit) (s : calc) :
  entry_wf (currentInput s) ->
  entry_wf (currentInput (appendNumber (digit_key d) s)).
Proof.
  intro H. destruct s as [cur prev op flag disp]. fields.
  unfold appendNumber. fields.
  destruct flag; fields.
  - change ("" =? "0") with false. cbn [andb]. fields.
    apply (entry_wf_digit "" d), entry_wf_nil.
  - destruct (String.eqb_spec cur "0") as [-> | Hc]; cbn [andb].
    + destruct (digit_key d =? "0") eqn:E; cbn [negb]; fields.
      * split; [cbn; lia | reflexivity].
      * apply (entry_wf_digit "" d), entry_wf_nil.
    + fields. apply entry_wf_digit, H.
Qed.

Lemma entry_wf_appendDecimal (s : calc) :
  entry_wf (currentInput s) -> entry_wf (currentInput (appendDecimal s)).
Proof.
  intro H. unfold appendDecimal. cbv zeta.
  set (s1 := if shouldResetDisplay s
             then set_shouldResetDisplay false (set_currentInput "0" s)
             else s).
  assert (H1 : entry_wf (currentInput s1)).
  { subst s1. destruct (shouldResetDisplay s); fields;
      [split; [cbn; lia | reflexivity] | exact H]. }
  clearbody s1.
  set (s2 := if currentInput s1 =? "" then set_currentInput "0" s1 else s1).
  assert (H2 : entry_wf (currentInput s2)).
  { subst s2. destruct (currentInput s1 =? ""); fields;
      [split; [cbn; lia | reflexivity] | exact H1]. }
  clearbody s2.
  destruct (JS.includes (currentInput s2) ".") eqn:E; cbn [negb]; fields.
  - exact H2.
  - apply entry_wf_dot; assumption.
Qed.

Lemma entry_wf_calculateResult (s : calc) :
  entry_wf (currentInput s) -> entry_wf (currentInput (calculateResult s)).
Proof.
  intro H. destruct (calculateResult_cases s) as [E | [E | [r E]]]; rewrite E.
  - exact H.
  - apply entry_wf_nil.
  - apply toString_wf.
Qed.

Lemma entry_wf_toggleSign (s : calc) :
  entry_wf (currentInput s) -> entry_wf (currentInput (toggleSign s)).
Proof.
  intro H. unfold toggleSign.
  destruct (_ || _); [exact H |].
  destruct (JS.startsWith (currentInput s) "-") eqn:E; fields.
  - apply entry_wf_strip; assumption.
  - apply entry_wf_negate; assumption.
Qed.

Lemma entry_wf_step (e : event) (s : calc) :
  entry_wf (currentInput s) -> entry_wf (currentInput (step e s)).
Proof.
  intro H. destruct e; cbn [step].
  - apply entry_wf_appendNumber, H.
  - apply entry_wf_appendDecimal, H.
  - destruct (appendOperator_operand o s) as [E | [E | [E _]]]; rewrite E.
    + exact H.
    + apply entry_wf_calculateResult, H.
    + apply entry_wf_nil.
  - apply entry_wf_calculateResult, H.
  - apply entry_wf_nil.
  - rewrite backspace_entry. apply entry_wf_shortened, H.
  - unfold calculateSquare.
    destruct (currentInput s =? ""); [exact H | apply toString_wf].
  - apply entry_wf_toggleSign, H.
Qed.

(** C5: in every state reachable from the initial state through the eight
    operations, the entry holds at most one ['.'] and does not start with
    two ['-']. *)
Theorem entry_wf_invariant (s : calc) :
  reachable s ->
  count_dot (currentInput s) <= 1
  /\ JS.startsWith (currentInput s) "--" = false.
Proof.
  induction 1 as [| e s _ IH].
  - exact entry_wf_nil.
  - exact (entry_wf_step e s IH).
Qed.

Lemma entry_wf_invariant_witness :
  let s := run [Digit D3; Decimal; Digit D5; Decimal; ToggleSign;
                ToggleSign; ToggleSign] init in
  currentInput s = "-3.5"
  /\ count_dot (currentInput s) <= 1
  /\ JS.startsWith (currentInput s) "--" = false.
Proof.
  intro s. split; [reflexivity |].
  apply (entry_wf_invariant s).
  subst s. unfold run. cbn [fold_left].
  repeat apply reachable_step. apply reachable_init.
Defined.

(** ** The display is a sink *)

Lemma if_append_history (c : bool) (h : list string) (a b : calc) :
  (if c then append_history h a else append_history h b)
  = append_history h (if c then a else b).
Proof. destruct c; reflexivity. Qed.

(** Unfold [append_history] where a projection or a setter meets it. *)
Ltac history :=
  cbn [append_history currentInput previousInput operator shouldResetDisplay
       display set_currentInput set_previousInput set_operator
       set_shouldResetDisplay updateDisplay app] in *.

(** Split the tests of the goal, a test nested in another one first. *)
Ltac innermost_ifs :=
  repeat match goal with
  | |- context [if ?b then _ else _] =>
      lazymatch b with
      | context [if _ then _ else _] => fail
      | _ => destruct b; history
      end
  end.

Lemma calculateResult_history (h : list string) (s : calc) :
  calculateResult (append_history h s) = append_history h (calculateResult s).
Proof.
  unfold calculateResult, commitResult, clearAll. history.
  repeat match goal with
  | |- context [if ?b then _ else _] => destruct b
  end; reflexivity.
Qed.

Lemma appendOperator_history (op : string) (h : list string) (s : calc) :
  appendOperator op (append_history h s)
  = append_history h (appendOperator op s).
Proof.
  unfold appendOperator. cbv zeta.
  change (currentInput (append_history h s)) with (currentInput s).
  change (previousInput (append_history h s)) with (previousInput s).
  change (operator (append_history h s)) with (operator s).
  rewrite calculateResult_history, if_append_history.
  set (s1 := if _ : bool then calculateResult s else s).
  clearbody s1.
  change (currentInput (append_history h s1)) with (currentInput s1).
  change (previousInput (append_history h s1)) with (previousInput s1).
  change (set_currentInput (previousInput s1) (append_history h s1))
    with (append_history h (set_currentInput (previousInput s1) s1)).
  rewrite if_append_history.
  set (s2 := if _ : bool then set_currentInput (previousInput s1) s1 else s1).
  clearbody s2.
  change (currentInput (append_history h s2)) with (currentInput s2).
  destruct (currentInput s2 =? ""); reflexivity.
Qed.

Lemma step_append_history (e : event) (h : list string) (s : calc) :
  step e (append_history h s) = append_history h (step e s).
Proof.
  destruct e; cbn [step].
  - destruct s as [cur prev op flag disp].
    unfold appendNumber. history. innermost_ifs; reflexivity.
  - destruct s as [cur prev op flag disp].
    unfold appendDecimal. history. innermost_ifs; reflexivity.
  - apply appendOperator_history.
  - apply calculateResult_history.
  - reflexivity.
  - rewrite !backspace_eq. history. innermost_ifs; reflexivity.
  - unfold calculateSquare. history.
    destruct (currentInput s =? ""); reflexivity.
  - destruct s as [cur prev op flag disp].
    unfold toggleSign. history. innermost_ifs; reflexivity.
Qed.

Lemma run_history (es : list event) (h : list string) (s : calc) :
  run es (append_history h s) = append_history h (run es s).
Proof.
  revert s. induction es as [|e es IH]; intro s; [reflexivity |].
  unfold run in *. cbn [fold_left]. rewrite step_append_history. apply IH.
Qed.

(** X1: no handler reads the display: with an older display history [h]
    under the state, every sequence of events makes the same changes to the
    fields and the same writes, on top of [h]. *)
Theorem run_on_history (es : list event) (h : list string) (s : calc) :
  run es (append_history h s) = append_history h (run es s)
  /\ (forall e, step e (append_history h s) = append_history h (step e s)).
Proof.
  split; [apply run_history | intro e; apply step_append_history].
Qed.

(** X2: [clearAll] forgets everything but the display history: whatever the
    state was, any sequence of events after it gives the fields and the
    display writes it gives from the freshly loaded page. *)
Theorem clearAll_restarts (es : list event) (s : calc) :
  run es (clearAll s) = append_history (display s) (run es init).
Proof. rewrite <- run_history. reflexivity. Qed.

(** ** What an operator press does *)

(** The three ways out of [appendOperator], for any operator string. *)
Lemma appendOperator_cases (op : string) (s : calc) :
  appendOperator op s = s
  \/ appendOperator op s = calculateResult s
  \/ exists p w,
       p <> ""
       /\ appendOperator op s = mkCalc "" p op true (p :: w).
Proof.
  unfold appendOperator. cbv zeta.
  set (s1 := if negb (currentInput s =? "") && negb (previousInput s =? "")
                && negb (operator s =? "")
             then calculateResult s else s).
  assert (H1 : s1 = calculateResult s \/ s1 = s).
  { subst s1. destruct (_ && _); [left | right]; reflexivity. }
  clearbody s1.
  set (s2 := if (currentInput s1 =? "") && negb (previousInput s1 =? "")
             then set_currentInput (previousInput s1) s1 else s1).
  assert (H2 : currentInput s2 = "" -> s2 = s1).
  { subst s2. destruct (String.eqb_spec (currentInput s1) "") as [E | E];
      destruct (String.eqb_spec (previousInput s1) "") as [P | P];
      cbn [andb negb]; fields; congruence. }
  clearbody s2.
  destruct (String.eqb_spec (currentInput s2) "") as [E | E].
  - rewrite (H2 E). destruct H1 as [-> | ->]; [right; left | left]; reflexivity.
  - right; right. exists (currentInput s2), (display s2).
    split; [exact E | reflexivity].
Qed.

(** X3: an operator pressed on an empty entry keeps the pending operand,
    replaces the operator, sets the flag and shows the operand again; with
    no pending operand either, the press is ignored. *)
Theorem appendOperator_empty_entry (op : string) (s : calc) :
  currentInput s = "" ->
  (previousInput s <> "" ->
   appendOperator op s =
   mkCalc "" (previousInput s) op true (previousInput s :: display s))
  /\ (previousInput s = "" -> appendOperator op s = s).
Proof.
  destruct s as [cur prev o flag disp]. fields. intros ->. split.
  - intro Hp. unfold appendOperator. fields.
    repeat (progress (rewrite ?String.eqb_refl, ?(eqb_false _ _ Hp);
                      cbn [negb andb]; fields)).
    reflexivity.
  - intros ->. reflexivity.
Qed.

Lemma appendOperator_empty_entry_witness :
  appendOperator "-" (mkCalc "" "8" "+" true ["8"]) =
    mkCalc "" "8" "-" true ["8"; "8"]
  /\ appendOperator "-" init = init.
Proof.
  split.
  - apply (proj1 (appendOperator_empty_entry "-" (mkCalc "" "8" "+" true ["8"])
                    eq_refl)).
    discriminate.
  - apply (proj2 (appendOperator_empty_entry "-" init eq_refl)). reflexivity.
Defined.

(** X4: an operator pressed while a division or a modulo by zero is pending
    is lost with the rest: ["Error"] then ["0"] are shown and the state is
    the initial one, with no operator pending. *)
Theorem appendOperator_after_zero (op : string) (s : calc) :
  previousInput s <> "" -> currentInput s <> "" ->
  operator s = "/" \/ operator s = "%" ->
  JS.strict_eq (JS.parseFloat (currentInput s)) JS.pos_zero = true ->
  appendOperator op s = mkCalc "" "" "" false ("0" :: "Error" :: display s).
Proof.
  intros Hp Hc Ho Hz. unfold appendOperator. cbv zeta.
  assert (Hop : operator s <> "") by (destruct Ho as [E | E]; rewrite E; discriminate).
  rewrite (eqb_false _ _ Hp), (eqb_false _ _ Hc), (eqb_false _ _ Hop).
  cbn [negb andb]. rewrite (calculateResult_zero s Hp Hc Ho Hz). reflexivity.
Qed.

Lemma appendOperator_after_zero_witness :
  appendOperator "+" (run [Digit D5; Operator Div; Digit D0] init)
  = mkCalc "" "" "" false ["0"; "Error"; "0"; "5"; "5"; "0"].
Proof.
  apply (appendOperator_after_zero "+"
           (run [Digit D5; Operator Div; Digit D0] init));
    vm_compute; first [discriminate | reflexivity | left; reflexivity].
Defined.

(** X5: an operator pressed while an operation is fully entered evaluates it
    first: the rounded result becomes the pending operand of the new
    operator, the entry is emptied, the flag is set, and the result is
    written to the display twice. *)
Theorem appendOperator_chains (op : string) (s : calc) (o : binop) :
  previousInput s <> "" -> currentInput s <> "" ->
  operator s = op_key o ->
  (checks_zero o = true ->
   JS.strict_eq (JS.parseFloat (currentInput s)) JS.pos_zero = false) ->
  let result :=
    JS.toString
      (round8 (apply_binop o (JS.parseFloat (previousInput s))
                             (JS.parseFloat (currentInput s)))) in
  appendOperator op s = mkCalc "" result op true (result :: result :: display s).
Proof.
  intros Hp Hc Ho Hz result. unfold appendOperator. cbv zeta.
  assert (Hop : operator s <> "") by (rewrite Ho; destruct o; discriminate).
  rewrite (eqb_false _ _ Hp), (eqb_false _ _ Hc), (eqb_false _ _ Hop).
  cbn [negb andb]. rewrite (calculateResult_commit s o Hp Hc Ho Hz).
  unfold commitResult. fold result. fields.
  assert (Hr : result <> "") by apply toString_nonempty.
  rewrite (eqb_false _ _ Hr). cbn [andb]. fields.
  rewrite (eqb_false _ _ Hr). reflexivity.
Qed.

Lemma appendOperator_chains_witness :
  appendOperator "-" (run [Digit D5; Operator Add; Digit D3] init)
  = mkCalc "" "8" "-" true ["8"; "8"; "3"; "5"; "5"; "0"].
Proof.
  refine (eq_trans
            (appendOperator_chains "-"
               (run [Digit D5; Operator Add; Digit D3] init) Add _ _ _ _) _);
    vm_compute; first [discriminate | reflexivity].
Defined.

(** ** What the display shows *)

Lemma display_ok_calculateResult (s : calc) :
  display_ok s -> display_ok (calculateResult s).
Proof.
  intro H. destruct (calculateResult_cases s) as [E | [E | [r E]]]; rewrite E.
  - exact H.
  - right. split; [reflexivity | left; reflexivity].
  - left. reflexivity.
Qed.

Lemma display_ok_step (e : event) (s : calc) :
  display_ok s -> display_ok (step e s).
Proof.
  intro H. destruct e; cbn [step].
  - destruct s as [cur prev op flag disp].
    unfold appendNumber. fields.
    destruct flag; fields.
    + change ("" =? "0") with false. cbn [andb]. fields. left. reflexivity.
    + repeat match goal with
      | |- context [if ?b then _ else _] => destruct b; fields
      end; first [exact H | left; reflexivity].
  - destruct s as [cur prev op flag disp].
    unfold appendDecimal. fields.
    destruct flag; fields.
    + change ("0" =? "") with false. cbv iota.
      change (JS.includes "0" ".") with false. left. reflexivity.
    + destruct (String.eqb_spec cur "") as [-> | Hc]; fields.
      * change (JS.includes "0" ".") with false. left. reflexivity.
      * destruct (JS.includes cur "."); cbn [negb]; fields;
          [exact H | left; reflexivity].
  - destruct (appendOperator_cases (op_key o) s) as [E | [E | [p [w [_ E]]]]];
      rewrite E.
    + exact H.
    + apply display_ok_calculateResult, H.
    + right. split; [reflexivity | right; reflexivity].
  - apply display_ok_calculateResult, H.
  - right. split; [reflexivity | left; reflexivity].
  - rewrite backspace_eq.
    destruct (0 <? JS.length (currentInput s))%nat; [| exact H].
    destruct (_ || _).
    + right. split; [reflexivity | left; reflexivity].
    + left. reflexivity.
  - unfold calculateSquare.
    destruct (currentInput s =? ""); [exact H | left; reflexivity].
  - unfold toggleSign.
    repeat match goal with
    | |- context [if ?b then _ else _] => destruct b; fields
    end; first [exact H | left; reflexivity].
Qed.

(** X6: in every reachable state the display shows the entry, and with an
    empty entry it shows ["0"] or the pending operand. *)
Theorem display_ok_invariant (s : calc) : reachable s -> display_ok s.
Proof.
  induction 1 as [| e s _ IH].
  - right. split; [reflexivity | left; reflexivity].
  - apply display_ok_step, IH.
Qed.

Lemma display_ok_invariant_witness :
  display_ok (step (Operator Sub) (step (Digit D4) (step Decimal init))).
Proof.
  apply display_ok_invariant.
  repeat apply reachable_step. apply reachable_init.
Defined.

(** ** What can be pending *)

Lemma pending_ok_calculateResult (s : calc) :
  pending_ok s -> pending_ok (calculateResult s).
Proof.
  intro H. destruct (calculateResult_cases s) as [E | [E | [r E]]]; rewrite E;
    [exact H | |]; left; split; reflexivity.
Qed.

Lemma pending_ok_fields (s t : calc) :
  operator t = operator s -> previousInput t = previousInput s ->
  pending_ok s -> pending_ok t.
Proof. unfold pending_ok. intros -> ->. trivial. Qed.

Lemma pending_ok_step (e : event) (s : calc) :
  pending_ok s -> pending_ok (step e s).
Proof.
  intro H. destruct e; cbn [step].
  - apply (pending_ok_fields s); [| | exact H];
      destruct s as [cur prev op flag disp]; unfold appendNumber; fields;
      destruct flag; fields;
      repeat match goal with
      | |- context [if ?b then _ else _] => destruct b; fields
      end; reflexivity.
  - apply (pending_ok_fields s); [| | exact H];
      destruct s as [cur prev op flag disp]; unfold appendDecimal; fields;
      destruct flag; fields;
      repeat match goal with
      | |- context [if ?b then _ else _] => destruct b; fields
      end; reflexivity.
  - destruct (appendOperator_cases (op_key o) s) as [E | [E | [p [w [Hp E]]]]];
      rewrite E.
    + exact H.
    + apply pending_ok_calculateResult, H.
    + right. split; [exists o; reflexivity | exact Hp].
  - apply pending_ok_calculateResult, H.
  - left. split; reflexivity.
  - apply (pending_ok_fields s); [| | exact H]; rewrite backspace_eq;
      repeat match goal with
      | |- context [if ?b then _ else _] => destruct b
      end; reflexivity.
  - apply (pending_ok_fields s); [| | exact H]; unfold calculateSquare;
      destruct (currentInput s =? ""); reflexivity.
  - apply (pending_ok_fields s); [| | exact H]; unfold toggleSign;
      repeat match goal with
      | |- context [if ?b then _ else _] => destruct b; fields
      end; reflexivity.
Qed.

Lemma pending_ok_reachable (s : calc) : reachable s -> pending_ok s.
Proof.
  induction 1 as [| e s _ IH].
  - left. split; reflexivity.
  - apply pending_ok_step, IH.
Qed.

(** X7: in every reachable state the operator is empty together with the
    pending operand, or it is one of [+ - * / %] and the operand is not
    empty; so [calculateResult] never leaves by the [default] of its
    [switch]: with an operand and an entry it always ends the pending
    operation. *)
Theorem pending_ok_invariant (s : calc) :
  reachable s ->
  pending_ok s
  /\ (previousInput s <> "" -> currentInput s <> "" ->
      previousInput (calculateResult s) = ""
      /\ operator (calculateResult s) = ""
      /\ calculateResult s <> s).
Proof.
  intro R. pose proof (pending_ok_reachable s R) as H.
  split; [exact H |]. intros Hp Hc.
  destruct H as [[_ E] | [[o Ho] _]]; [congruence |].
  destruct (checks_zero o) eqn:Z.
  - destruct (JS.strict_eq (JS.parseFloat (currentInput s)) JS.pos_zero) eqn:E.
    + assert (Hd : operator s = "/" \/ operator s = "%")
        by (rewrite Ho; destruct o; try discriminate Z; auto).
      rewrite (calculateResult_zero s Hp Hc Hd E).
      repeat split. intro C. rewrite <- C in Hp. apply Hp. reflexivity.
    + rewrite (calculateResult_commit s o Hp Hc Ho (fun _ => E)).
      repeat split. intro C. rewrite <- C in Hp. apply Hp. reflexivity.
  - rewrite (calculateResult_commit s o Hp Hc Ho).
    + repeat split. intro C. rewrite <- C in Hp. apply Hp. reflexivity.
    + congruence.
Qed.

Lemma pending_ok_invariant_witness :
  let s := run [Digit D6; Operator Mod; Digit D4] init in
  previousInput (calculateResult s) = ""
  /\ operator (calculateResult s) = ""
  /\ calculateResult s <> s.
Proof.
  intro s. refine (proj2 (pending_ok_invariant s _) _ _).
  - subst s. unfold run. cbn [fold_left].
    repeat apply reachable_step. apply reachable_init.
  - discriminate.
  - discriminate.
Defined.

(** ** The decimal point *)

Lemma includes_snoc_dot (e : string) : JS.includes (e ++ ".") "." = true.
Proof.
  induction e as [|c e IH]; [reflexivity |].
  cbn [append JS.includes]. rewrite IH. apply orb_true_r.
Qed.

Lemma appendDecimal_noop (s : calc) :
  shouldResetDisplay s = false -> JS.includes (currentInput s) "." = true ->
  appendDecimal s = s.
Proof.
  destruct s as [cur prev op flag disp]. fields. intros -> Hi.
  unfold appendDecimal. fields.
  destruct (String.eqb_spec cur "") as [-> | Hc]; [discriminate Hi |].
  fields. rewrite Hi. reflexivity.
Qed.

Lemma appendDecimal_result (s : calc) :
  JS.includes (currentInput (appendDecimal s)) "." = true
  /\ shouldResetDisplay (appendDecimal s) = false.
Proof.
  destruct s as [cur prev op flag disp]. unfold appendDecimal. fields.
  destruct flag; fields.
  - change ("0" =? "") with false. cbv iota.
    change (JS.includes "0" ".") with false. split; reflexivity.
  - destruct (String.eqb_spec cur "") as [-> | Hc]; fields.
    + change (JS.includes "0" ".") with false. split; reflexivity.
    + destruct (JS.includes cur ".") eqn:E; cbn [negb]; fields.
      * split; [exact E | reflexivity].
      * split; [apply includes_snoc_dot | reflexivity].
Qed.

(** X8: after [appendDecimal] the entry holds a ['.'] and the flag is unset,
    whatever the state was, and a second [appendDecimal] right after changes
    nothing and writes nothing. *)
Theorem appendDecimal_idempotent (s : calc) :
  JS.includes (currentInput (appendDecimal s)) "." = true
  /\ shouldResetDisplay (appendDecimal s) = false
  /\ appendDecimal (appendDecimal s) = appendDecimal s.
Proof.
  destruct (appendDecimal_result s) as [Hi Hf].
  repeat split; try assumption. apply appendDecimal_noop; assumption.
Qed.

(** X9: with the flag set or the entry empty, [appendDecimal] starts the
    entry ["0."], unsets the flag, shows ["0."] and keeps what is pending. *)
Theorem appendDecimal_fresh (s : calc) :
  shouldResetDisplay s = true \/ currentInput s = "" ->
  appendDecimal s =
  mkCalc "0." (previousInput s) (operator s) false ("0." :: display s).
Proof.
  destruct s as [cur prev op flag disp]. fields. unfold appendDecimal. fields.
  intros [-> | ->].
  - reflexivity.
  - destruct flag; reflexivity.
Qed.

Lemma appendDecimal_fresh_witness :
  appendDecimal (run [Digit D1; Operator Add] init)
  = mkCalc "0." "1" "+" false ["0."; "1"; "1"; "0"].
Proof.
  apply (appendDecimal_fresh (run [Digit D1; Operator Add] init)).
  left. reflexivity.
Defined.

(** ** The sign change *)

Lemma toggleSign_noop (s : calc) :
  currentInput s = "" \/ currentInput s = "0" -> toggleSign s = s.
Proof. unfold toggleSign. intros [-> | ->]; reflexivity. Qed.

Lemma toggleSign_negates (s : calc) :
  currentInput s <> "" -> currentInput s <> "0" ->
  JS.startsWith (currentInput s) "-" = false ->
  toggleSign s =
  mkCalc ("-" ++ currentInput s) (previousInput s) (operator s)
         (shouldResetDisplay s) (("-" ++ currentInput s) :: display s).
Proof.
  intros H1 H2 H3. unfold toggleSign.
  rewrite (eqb_false _ _ H1), (eqb_false _ _ H2), H3. reflexivity.
Qed.

Lemma toggleSign_strips (s : calc) (t : string) :
  currentInput s = "-" ++ t ->
  toggleSign s =
  mkCalc t (previousInput s) (operator s) (shouldResetDisplay s)
         (t :: display s).
Proof.
  destruct s as [cur prev op flag disp]. fields. intros ->.
  unfold toggleSign, JS.startsWith. fields. cbn [append].
  rewrite prefix_cons, prefix_nil.
  destruct (ascii_dec "-" "-") as [_ | N]; [| congruence].
  destruct t; reflexivity.
Qed.

(** X10: [toggleSign] twice gives the entry back when the entry has no
    leading ['-'], and when it is ['-'] followed by a string that is not
    empty, not ["0"] and has no leading ['-'].  From ["-0"] the first press
    gives ["0"], which the second press leaves as it is. *)
Theorem toggleSign_twice (s : calc) :
  (JS.startsWith (currentInput s) "-" = false ->
   currentInput (toggleSign (toggleSign s)) = currentInput s)
  /\ (forall t, currentInput s = "-" ++ t -> t <> "" -> t <> "0" ->
                JS.startsWith t "-" = false ->
                currentInput (toggleSign (toggleSign s)) = currentInput s)
  /\ (currentInput s = "-0" ->
      currentInput (toggleSign (toggleSign s)) = "0").
Proof.
  repeat split.
  - intro H.
    destruct (String.eqb_spec (currentInput s) "") as [E | E1];
      [rewrite !(toggleSign_noop s (or_introl E)); reflexivity |].
    destruct (String.eqb_spec (currentInput s) "0") as [E | E2];
      [rewrite !(toggleSign_noop s (or_intror E)); reflexivity |].
    rewrite (toggleSign_negates s E1 E2 H).
    rewrite (toggleSign_strips _ (currentInput s)); reflexivity.
  - intros t E T1 T2 T3. rewrite (toggleSign_strips s t E).
    rewrite toggleSign_negates; fields; try assumption.
    symmetry. exact E.
  - intro E. rewrite (toggleSign_strips s "0" E). reflexivity.
Qed.

Lemma toggleSign_twice_witness :
  currentInput (toggleSign (toggleSign (run [Digit D7] init))) = "7"
  /\ currentInput
       (toggleSign (toggleSign (run [Digit D7; ToggleSign] init))) = "-7".
Proof.
  split.
  - apply (proj1 (toggleSign_twice (run [Digit D7] init))). reflexivity.
  - apply (proj1 (proj2 (toggleSign_twice (run [Digit D7; ToggleSign] init)))
             "7"); [reflexivity | discriminate | discriminate | reflexivity].
Defined.

(** [parseFloat] reads a leading ['-'] as the negation of what follows. *)

Lemma scan_sign_plain (c : ascii) (t : string) :
  Ascii.eqb c "-" = false -> Ascii.eqb c "+" = false ->
  JS.scan_sign (String c t) = (false, String c t).
Proof.
  destruct c as [[] [] [] [] [] [] [] []]; intros H1 H2;
    first [reflexivity | discriminate H1 | discriminate H2].
Qed.

Lemma parseFloat_minus (e : string) :
  plain_head e = true ->
  JS.parseFloat ("-" ++ e) = SFopp (JS.parseFloat e).
Proof.
  intro H. unfold JS.parseFloat.
  change (JS.trim_start ("-" ++ e)) with (String "-" e).
  change (JS.scan_sign (String "-" e)) with (true, e).
  assert (E : JS.scan_sign (JS.trim_start e) = (false, e)).
  { destruct e as [|c t]; [reflexivity |].
    cbn [plain_head] in H.
    apply andb_prop in H. destruct H as [H H3].
    apply andb_prop in H. destruct H as [H1 H2].
    apply negb_true_iff in H1, H2, H3.
    cbn [JS.trim_start]. rewrite H1. apply scan_sign_plain; assumption. }
  rewrite E. cbv beta iota zeta.
  destruct (prefix "Infinity" e); [reflexivity |].
  destruct (JS.scan_digits 0 0 e) as [[ip ilen] s2].
  destruct (match s2 with
            | String "." s2' => JS.scan_digits ip 0 s2'
            | _ => (ip, 0, s2)
            end) as [[m flen] s3].
  destruct (ilen + flen); reflexivity.
Qed.

Lemma SFopp_involutive (x : JS.number) : SFopp (SFopp x) = x.
Proof. destruct x as [[] | [] | | [] m e]; reflexivity. Qed.

(** X11: [toggleSign] negates the number the entry stands for: when the
    entry is not empty and not ["0"], and [parseFloat] starts reading at its
    first character, or at its second after a leading ['-'], the new entry
    parses to the opposite of what the old one parses to. *)
Theorem toggleSign_value (s : calc) :
  currentInput s <> "" -> currentInput s <> "0" ->
  plain_head (currentInput s) = true
  \/ (exists t, currentInput s = "-" ++ t /\ plain_head t = true) ->
  JS.parseFloat (currentInput (toggleSign s))
  = SFopp (JS.parseFloat (currentInput s)).
Proof.
  intros H1 H2 [H | [t [E H]]].
  - assert (H3 : JS.startsWith (currentInput s) "-" = false).
    { unfold JS.startsWith. destruct (currentInput s) as [|c t]; [reflexivity |].
      rewrite prefix_cons. destruct (ascii_dec "-" c) as [<- | N];
        [discriminate H | reflexivity]. }
    rewrite (toggleSign_negates s H1 H2 H3). fields.
    apply parseFloat_minus, H.
  - rewrite (toggleSign_strips s t E), E. fields.
    rewrite (parseFloat_minus t H), SFopp_involutive. reflexivity.
Qed.

Lemma toggleSign_value_witness :
  JS.parseFloat
    (currentInput (toggleSign (run [Digit D2; Decimal; Digit D5] init)))
  = SFopp (JS.parseFloat "2.5")
  /\ JS.parseFloat
       (currentInput
          (toggleSign (run [Digit D2; Decimal; Digit D5; ToggleSign] init)))
     = SFopp (JS.parseFloat "-2.5").
Proof.
  split.
  - apply (toggleSign_value (run [Digit D2; Decimal; Digit D5] init));
      [discriminate | discriminate | left; reflexivity].
  - apply (toggleSign_value
             (run [Digit D2; Decimal; Digit D5; ToggleSign] init));
      [discriminate | discriminate |].
    right. exists "2.5". split; reflexivity.
Defined.

(** ** Typing digits *)

Lemma append_assoc (a b c : string) : (a ++ b) ++ c = a ++ (b ++ c).
Proof. induction a as [|x a IH]; [reflexivity |]. cbn [append]. now rewrite IH. Qed.

Lemma append_nil_r (a : string) : a ++ "" = a.
Proof. induction a as [|x a IH]; [reflexivity |]. cbn [append]. now rewrite IH. Qed.

Lemma appendNumber_appends (d : digit) (s : calc) :
  shouldResetDisplay s = false -> currentInput s <> "0" ->
  appendNumber (digit_key d) s =
  mkCalc (currentInput s ++ digit_key d) (previousInput s) (operator s)
         false ((currentInput s ++ digit_key d) :: display s).
Proof.
  destruct s as [cur prev op flag disp]. fields. intros -> Hc.
  unfold appendNumber. fields. rewrite (eqb_false _ _ Hc). reflexivity.
Qed.

Lemma snoc_digit_not_zero (e : string) (d : digit) :
  e <> "" -> e ++ digit_key d <> "0".
Proof.
  destruct e as [|a [|b t]]; [congruence | |]; intros _;
    destruct d; discriminate.
Qed.

Lemma digits_append (ds : list digit) (s : calc) :
  shouldResetDisplay s = false ->
  currentInput s <> "" -> currentInput s <> "0" ->
  currentInput (run (map Digit ds) s) = currentInput s ++ digits_string ds
  /\ previousInput (run (map Digit ds) s) = previousInput s
  /\ operator (run (map Digit ds) s) = operator s
  /\ shouldResetDisplay (run (map Digit ds) s) = false.
Proof.
  revert s. induction ds as [|d ds IH]; intros s Hf H1 H2.
  - cbn. rewrite append_nil_r. auto.
  - unfold run in *. cbn [map fold_left step digits_string].
    rewrite (appendNumber_appends d s Hf H2).
    match goal with |- context [fold_left _ _ ?s1] =>
      destruct (IH s1) as [E1 [E2 [E3 E4]]]
    end; fields.
    + reflexivity.
    + apply append_nonempty_l, H1.
    + apply snoc_digit_not_zero, H1.
    + rewrite E1, E2, E3, E4. fields. rewrite append_assoc. auto.
Qed.

Lemma zeros_keep_fresh (n : nat) (s : calc) :
  shouldResetDisplay s = true \/ currentInput s = "" \/ currentInput s = "0" ->
  let s' := run (map Digit (repeat D0 n)) s in
  (shouldResetDisplay s' = true \/ currentInput s' = ""
   \/ currentInput s' = "0")
  /\ previousInput s' = previousInput s /\ operator s' = operator s.
Proof.
  revert s. induction n as [|n IH]; intros s H; [cbn; auto |].
  unfold run in *. cbn [repeat map fold_left step digit_key].
  match goal with |- context [fold_left _ _ ?s1] =>
    assert (H1 : (shouldResetDisplay s1 = true \/ currentInput s1 = ""
                  \/ currentInput s1 = "0")
                 /\ previousInput s1 = previousInput s
                 /\ operator s1 = operator s)
  end.
  { destruct s as [cur prev op flag disp]. fields. unfold appendNumber. fields.
    destruct flag; fields.
    - cbn. auto.
    - destruct H as [H | [-> | ->]]; [discriminate H | |]; cbn; auto. }
  destruct H1 as [F [E2 E3]].
  destruct (IH _ F) as [F' [E2' E3']]. cbv zeta in *.
  rewrite E2', E3', E2, E3. auto.
Qed.

Lemma appendNumber_first (d : digit) (s : calc) :
  d <> D0 ->
  shouldResetDisplay s = true \/ currentInput s = "" \/ currentInput s = "0" ->
  appendNumber (digit_key d) s =
  mkCalc (digit_key d) (previousInput s) (operator s) false
         (digit_key d :: display s).
Proof.
  intros Hd H. destruct s as [cur prev op flag disp]. fields.
  unfold appendNumber. fields. destruct flag; fields; [reflexivity |].
  destruct H as [H | [-> | ->]]; [discriminate H | reflexivity |].
  destruct d; try congruence; reflexivity.
Qed.

(** X12: digits typed on a started entry (flag unset, entry neither empty
    nor ["0"]) are appended to it one by one; what is pending and the flag
    do not change. *)
Theorem digits_typed_append (ds : list digit) (s : calc) :
  shouldResetDisplay s = false ->
  currentInput s <> "" -> currentInput s <> "0" ->
  currentInput (run (map Digit ds) s) = currentInput s ++ digits_string ds
  /\ previousInput (run (map Digit ds) s) = previousInput s
  /\ operator (run (map Digit ds) s) = operator s
  /\ shouldResetDisplay (run (map Digit ds) s) = false.
Proof. apply digits_append. Qed.

Lemma digits_typed_append_witness :
  currentInput (run (map Digit [D0; D0; D7]) (run [Digit D4; Decimal] init))
  = "4.007".
Proof.
  apply (digits_typed_append [D0; D0; D7] (run [Digit D4; Decimal] init));
    [reflexivity | discriminate | discriminate].
Defined.

(** X13: on a fresh entry (flag set, or entry empty or ["0"]) any number of
    leading zeros collapses: after [n] zeros, a non-zero digit and more
    digits, the entry is that digit followed by those digits, and what is
    pending has not changed. *)
Theorem digits_typed_fresh (n : nat) (d : digit) (ds : list digit) (s : calc) :
  d <> D0 ->
  shouldResetDisplay s = true \/ currentInput s = "" \/ currentInput s = "0" ->
  let s' := run (map Digit (repeat D0 n ++ d :: ds)) s in
  currentInput s' = digits_string (d :: ds)
  /\ previousInput s' = previousInput s
  /\ operator s' = operator s
  /\ shouldResetDisplay s' = false.
Proof.
  intros Hd H s'. subst s'.
  destruct (zeros_keep_fresh n s H) as [F [E2 E3]]. cbv zeta in *.
  unfold run in *. rewrite map_app, fold_left_app.
  set (s1 := fold_left _ (map Digit (repeat D0 n)) s) in *.
  cbn [map fold_left step].
  rewrite (appendNumber_first d s1 Hd F).
  match goal with |- context [fold_left _ _ ?s2] =>
    destruct (digits_append ds s2) as [E1' [E2' [E3' E4']]]
  end; fields.
  - reflexivity.
  - destruct d; discriminate.
  - destruct d; try congruence; discriminate.
  - unfold run in *. rewrite E1', E2', E3', E4'. fields.
    rewrite E2, E3. auto.
Qed.

Lemma digits_typed_fresh_witness :
  currentInput
    (run (map Digit (repeat D0 3 ++ D5 :: [D0; D9]))
         (run [Digit D1; Operator Add] init)) = "509".
Proof.
  apply (digits_typed_fresh 3 D5 [D0; D9] (run [Digit D1; Operator Add] init));
    [discriminate | left; reflexivity].
Defined.

(** ** Backspace after a digit *)

Lemma slice_0_m1_snoc (e : string) (c : ascii) :
  JS.slice_0_m1 (e ++ String c "") = e.
Proof.
  induction e as [|a e IH]; [reflexivity |].
  cbn [append]. destruct e as [|b e].
  - reflexivity.
  - cbn [append] in *.
    change (JS.slice_0_m1 (String a (String b (e ++ String c ""))))
      with (String a (JS.slice_0_m1 (String b (e ++ String c "")))).
    rewrite IH. reflexivity.
Qed.

(** X14: a [backspace] right after a digit takes the digit back: with the
    flag unset and the entry neither ["0"] nor ["-"], the entry, what is
    pending and the flag are as before the digit. *)
Theorem backspace_undoes_digit (d : digit) (s : calc) :
  shouldResetDisplay s = false ->
  currentInput s <> "0" -> currentInput s <> "-" ->
  let s' := backspace (appendNumber (digit_key d) s) in
  currentInput s' = currentInput s
  /\ previousInput s' = previousInput s
  /\ operator s' = operator s
  /\ shouldResetDisplay s' = false.
Proof.
  intros Hf H0 Hm s'. subst s'.
  rewrite (appendNumber_appends d s Hf H0).
  rewrite backspace_entry. fields. unfold shortened.
  assert (E : JS.slice_0_m1 (currentInput s ++ digit_key d) = currentInput s)
    by (destruct d; apply slice_0_m1_snoc).
  rewrite E, (eqb_false _ _ Hm), orb_false_r.
  split.
  - destruct (String.eqb_spec (currentInput s) ""); congruence.
  - rewrite backspace_eq. fields.
    repeat match goal with
    | |- context [if ?b then _ else _] => destruct b
    end; auto.
Qed.

Lemma backspace_undoes_digit_witness :
  currentInput
    (backspace (appendNumber "8" (run [Digit D1; Decimal] init))) = "1.".
Proof.
  apply (backspace_undoes_digit D8 (run [Digit D1; Decimal] init));
    [reflexivity | discriminate | discriminate].
Defined.

(** ** Signs *)

Lemma binary_round_aux_sign (m e : Z) (l : location) :
  sign_bit (binary_round_aux JS.prec JS.emax false m e l) = false.
Proof.
  unfold binary_round_aux.
  destruct (shr_fexp JS.prec JS.emax m e l) as [mrs e'].
  destruct (shr_fexp JS.prec JS.emax _ e' loc_Exact) as [mrs' e''].
  destruct (shr_m mrs'); [reflexivity | | reflexivity].
  destruct (e'' <=? JS.emax - JS.prec)%Z; reflexivity.
Qed.

Lemma binary_round_sign (m : positive) (e : Z) :
  sign_bit (binary_round JS.prec JS.emax false m e) = false.
Proof.
  unfold binary_round. destruct (shl_align m e _) as [mz ez].
  apply binary_round_aux_sign.
Qed.

Lemma mul_self_sign (x : JS.number) : sign_bit (JS.mul x x) = false.
Proof.
  unfold JS.mul, SFmul.
  destruct x as [[] | [] | | [] m e]; cbn [xorb sign_bit]; try reflexivity;
    apply binary_round_aux_sign.
Qed.

Lemma mul_sign (x : JS.number) (m : positive) (e : Z) :
  sign_bit x = false -> sign_bit (JS.mul x (S754_finite false m e)) = false.
Proof.
  unfold JS.mul, SFmul.
  destruct x as [s | s | | s mx ex]; cbn [sign_bit]; intro H;
    try subst s; cbn [xorb sign_bit]; try reflexivity.
  apply binary_round_aux_sign.
Qed.

Lemma div_sign (x : JS.number) (m : positive) (e : Z) :
  sign_bit x = false -> sign_bit (JS.div x (S754_finite false m e)) = false.
Proof.
  unfold JS.div, SFdiv.
  destruct x as [s | s | | s mx ex]; cbn [sign_bit]; intro H;
    try subst s; cbn [xorb sign_bit]; try reflexivity.
  destruct (SFdiv_core_binary JS.prec JS.emax (Z.pos mx) ex (Z.pos m) e)
    as [[mz ez] lz].
  apply binary_round_aux_sign.
Qed.

Lemma Math_round_sign (x : JS.number) :
  sign_bit x = false -> sign_bit (JS.Math_round x) = false.
Proof.
  unfold JS.Math_round.
  destruct x as [s | s | | s m e]; cbn [sign_bit]; intro H; try exact H.
  subst s. destruct (0 <=? e)%Z eqn:E; [reflexivity |].
  apply Z.leb_gt in E.
  assert (Q : (0 <= (2 * Z.pos m + 2 ^ (- e)) / 2 ^ (1 - e))%Z).
  { apply Z.div_pos; [| apply Z.pow_pos_nonneg; lia].
    assert (0 < 2 ^ (- e))%Z by (apply Z.pow_pos_nonneg; lia). lia. }
  destruct ((2 * Z.pos m + 2 ^ (- e)) / 2 ^ (1 - e))%Z as [|q|q]; [reflexivity | |].
  - change (Z.pos q =? 0)%Z with false. cbv iota.
    unfold JS.of_Z, binary_normalize. apply binary_round_sign.
  - lia.
Qed.

Lemma round8_sign (x : JS.number) :
  sign_bit x = false -> sign_bit (round8 x) = false.
Proof.
  intro H. unfold round8.
  assert (E : JS.of_Z 100000000 = S754_finite false 6710886400000000 (-26))
    by reflexivity.
  rewrite E. apply div_sign, Math_round_sign, mul_sign, H.
Qed.

Lemma toString_sign (x : JS.number) :
  sign_bit x = false -> JS.startsWith (JS.toString x) "-" = false.
Proof.
  unfold JS.toString.
  destruct x as [s | s | | s m e]; cbn [sign_bit]; intro H; try subst s;
    try reflexivity.
  pose proof (shortest_digits m e) as D.
  destruct (JS.shortest m e) as [digits n]. cbn [fst] in D.
  cbn [append]. apply format_decimal_minus, D.
Qed.

Lemma rem_sign (x y : JS.number) :
  sign_bit x = false -> sign_bit (JS.rem x y) = false.
Proof.
  unfold JS.rem.
  destruct x as [s | s | | s mx ex]; cbn [sign_bit]; intro H; try subst s;
    destruct y as [sy | sy | | sy my ey]; try reflexivity.
  set (e0 := Z.min ex ey).
  set (X := Z.shiftl (Z.pos mx) (ex - e0)).
  set (Y := Z.shiftl (Z.pos my) (ey - e0)).
  assert (HY : (0 < Y)%Z).
  { subst Y. rewrite Z.shiftl_mul_pow2 by lia.
    apply Z.mul_pos_pos; [lia | apply Z.pow_pos_nonneg; lia]. }
  pose proof (Z.mod_pos_bound X Y HY) as B.
  destruct (X mod Y)%Z as [|r|r]; [reflexivity | | lia].
  change (Z.pos r =? 0)%Z with false. cbv iota.
  unfold binary_normalize. apply binary_round_sign.
Qed.

(** X15: [calculateSquare] never leaves a negative entry: the entry after it
    does not start with ['-'].  What is pending is untouched. *)
Theorem calculateSquare_nonnegative (s : calc) :
  JS.startsWith (currentInput (calculateSquare s)) "-" = false
  /\ previousInput (calculateSquare s) = previousInput s
  /\ operator (calculateSquare s) = operator s.
Proof.
  unfold calculateSquare.
  destruct (String.eqb_spec (currentInput s) "") as [E | E].
  - rewrite E. repeat split.
  - fields. repeat split.
    apply toString_sign, round8_sign, mul_self_sign.
Qed.

(** X16: the remainder takes no sign from the divisor: when the pending
    operand parses to a number that is not negative, the entry after a
    modulo does not start with ['-']. *)
Theorem modulo_sign (s : calc) :
  previousInput s <> "" -> currentInput s <> "" -> operator s = "%" ->
  JS.strict_eq (JS.parseFloat (currentInput s)) JS.pos_zero = false ->
  sign_bit (JS.parseFloat (previousInput s)) = false ->
  JS.startsWith (currentInput (calculateResult s)) "-" = false.
Proof.
  intros Hp Hc Ho Hz Hs.
  rewrite (calculateResult_commit s Mod Hp Hc Ho (fun _ => Hz)).
  unfold commitResult. fields. cbn [apply_binop].
  apply toString_sign, round8_sign, rem_sign, Hs.
Qed.

Lemma modulo_sign_witness :
  JS.startsWith
    (currentInput
       (calculateResult
          (run [Digit D7; Operator Mod; Digit D3; ToggleSign] init))) "-"
  = false.
Proof.
  apply (modulo_sign (run [Digit D7; Operator Mod; Digit D3; ToggleSign] init));
    vm_compute; first [discriminate | reflexivity].
Defined.

(** ** The keyboard *)

Lemma key_event (e : event) (k : string) (s : calc) :
  event_key e = Some k -> handleKeyboardInput k s = step e s.
Proof.
  destruct e; cbn [event_key step]; intro H; try discriminate H;
    injection H as <-.
  - apply key_digit.
  - apply key_decimal.
  - apply key_operator.
  - apply key_equals.
  - apply key_escape.
  - reflexivity.
Qed.

(** X17: the keyboard reaches six of the eight operations: a sequence of
    keys that are the keys of a sequence of events runs exactly these
    events; and [Enter] does what [=] does. *)
Theorem run_keys_events (es : list event) (ks : list string) (s : calc) :
  map event_key es = map Some ks ->
  run_keys ks s = run es s
  /\ handleKeyboardInput "Enter" s = handleKeyboardInput "=" s.
Proof.
  intro H. split; [| reflexivity].
  revert ks s H. induction es as [|e es IH]; intros [|k ks] s H;
    try discriminate H; [reflexivity |].
  cbn [map] in H. injection H as Hk Hks.
  unfold run_keys, run in *. cbn [fold_left].
  rewrite (key_event e k s Hk). apply IH, Hks.
Qed.

Lemma run_keys_events_witness :
  run_keys ["1"; "2"; "*"; "3"; "="; "Backspace"; "Escape"; "."] init
  = run [Digit D1; Digit D2; Operator Mul; Digit D3; Equals; Backspace;
         Clear; Decimal] init.
Proof.
  exact (proj1 (run_keys_events
                  [Digit D1; Digit D2; Operator Mul; Digit D3; Equals;
                   Backspace; Clear; Decimal]
                  ["1"; "2"; "*"; "3"; "="; "Backspace"; "Escape"; "."]
                  init eq_refl)).
Defined.

(** X18: a key of one character that is not in the script's list
    ["0123456789+-*/.%="] changes nothing and writes nothing. *)
Theorem key_ignored (c : ascii) (s : calc) :
  calculator_char c = false -> handleKeyboardInput (String c "") s = s.
Proof.
  destruct c as [[] [] [] [] [] [] [] []]; intro H; vm_compute in H;
    first [discriminate H | reflexivity].
Qed.

Lemma key_ignored_witness :
  handleKeyboardInput "a" (run [Digit D4; Operator Add; Digit D2] init)
  = run [Digit D4; Operator Add; Digit D2] init.
Proof. apply (key_ignored "a"). reflexivity. Defined.

(** ** The error listener *)

(** X19: after the listener for [error] events the calculator is as freshly
    loaded but for the display history, which has ["Error"] on top: any
    sequence of events gives the fields and the writes it gives from the
    initial state. *)
Theorem onWindowError_restarts (es : list event) (s : calc) :
  display_value (onWindowError s) = "Error"
  /\ exists w,
       display (run es (onWindowError s))
       = (w ++ "Error" :: "0" :: display s)%list
       /\ display (run es init) = (w ++ ["0"])%list
       /\ currentInput (run es (onWindowError s)) = currentInput (run es init)
       /\ previousInput (run es (onWindowError s)) = previousInput (run es init)
       /\ operator (run es (onWindowError s)) = operator (run es init)
       /\ shouldResetDisplay (run es (onWindowError s))
          = shouldResetDisplay (run es init).
Proof.
  split; [reflexivity |].
  exists (display (run es (mkCalc "" "" "" false []))).
  change (onWindowError s)
    with (append_history ("Error" :: "0" :: display s)
                         (mkCalc "" "" "" false [])).
  change init with (append_history ["0"] (mkCalc "" "" "" false [])).
  rewrite !run_history. repeat split.
Qed.

(** ** An operand that is not a number *)

Lemma round8_NaN : round8 JS.NaN = JS.NaN.
Proof. reflexivity. Qed.

Lemma apply_binop_NaN (o : binop) (x y : JS.number) :
  x = JS.NaN \/ y = JS.NaN -> apply_binop o x y = JS.NaN.
Proof.
  intros [-> | ->]; destruct o; cbn [apply_binop]; try reflexivity;
    destruct x as [[] | [] | | [] m e]; reflexivity.
Qed.

(** X20: nothing checks that the operands are numbers: when the pending
    operand or the entry does not parse ([parseFloat] gives [NaN]),
    [calculateResult] stores and shows ["NaN"], for each of the five
    operators. *)
Theorem calculateResult_NaN (s : calc) (o : binop) :
  previousInput s <> "" -> currentInput s <> "" ->
  operator s = op_key o ->
  JS.parseFloat (previousInput s) = JS.NaN
  \/ JS.parseFloat (currentInput s) = JS.NaN ->
  (checks_zero o = true ->
   JS.strict_eq (JS.parseFloat (currentInput s)) JS.pos_zero = false) ->
  currentInput (calculateResult s) = "NaN"
  /\ display_value (calculateResult s) = "NaN".
Proof.
  intros Hp Hc Ho Hn Hz.
  rewrite (calculateResult_commit s o Hp Hc Ho Hz).
  unfold commitResult. fields. unfold display_value. fields. cbn [hd].
  rewrite (apply_binop_NaN o _ _ Hn), round8_NaN. split; reflexivity.
Qed.

Lemma calculateResult_NaN_witness :
  let s := run ([Digit D9] ++ repeat Square 9
                ++ [Backspace; Operator Add; Digit D2]) init in
  previousInput s = "Infinit"
  /\ currentInput (calculateResult s) = "NaN"
  /\ display_value (calculateResult s) = "NaN".
Proof.
  intro s.
  assert (E : exists d, s = mkCalc "2" "Infinit" "+" false d)
    by (eexists; vm_compute; reflexivity).
  destruct E as [d E]. rewrite E. split; [reflexivity |].
  apply (calculateResult_NaN (mkCalc "2" "Infinit" "+" false d) Add).
  - discriminate.
  - discriminate.
  - reflexivity.
  - left. reflexivity.
  - discriminate.
Defined.

(** ** Thousands separators *)

Lemma is_digit_word (c : ascii) : JS.is_digit c = true -> is_word c = true.
Proof. unfold is_word. intros ->. reflexivity. Qed.

Lemma digit_run_digits (b : string) :
  string_forall JS.is_digit b = true -> digit_run b = String.length b.
Proof.
  induction b as [|c b IH]; [reflexivity |].
  cbn [string_forall digit_run String.length]. intro H.
  apply andb_prop in H. destruct H as [Hc Hb]. rewrite Hc, (IH Hb).
  reflexivity.
Qed.

Lemma digit_run_app (q b : string) :
  string_forall JS.is_digit b = true ->
  digit_run (q ++ b) =
  if string_forall JS.is_digit q
  then String.length q + String.length b
  else digit_run q.
Proof.
  intro Hb. induction q as [|c q IH]; [apply digit_run_digits, Hb |].
  cbn [append digit_run string_forall String.length].
  destruct (JS.is_digit c); [| reflexivity].
  cbn [andb]. rewrite IH.
  destruct (string_forall JS.is_digit q); reflexivity.
Qed.

Lemma group_ahead_app (q b : string) :
  q <> "" -> string_forall JS.is_digit b = true -> String.length b = 3 ->
  group_ahead (q ++ b) = group_ahead q.
Proof.
  intros Hq Hb Hl. unfold group_ahead. rewrite (digit_run_app q b Hb), Hl.
  destruct (string_forall JS.is_digit q) eqn:E; [| reflexivity].
  rewrite (digit_run_digits q E).
  destruct q as [|c q]; [congruence |]. cbn [String.length].
  replace (S (String.length q) + 3) with (S (String.length q) + 1 * 3) by lia.
  rewrite Nat.Div0.mod_add.
  destruct (String.length q) as [|[|n]]; reflexivity.
Qed.

Lemma insert_commas_three (b : string) :
  string_forall JS.is_digit b = true -> String.length b = 3 ->
  insert_commas true b = "," ++ b.
Proof.
  destruct b as [|b1 [|b2 [|b3 [|b4 b]]]]; try discriminate.
  cbn [string_forall]. intros H _.
  apply andb_prop in H. destruct H as [H1 H].
  apply andb_prop in H. destruct H as [H2 H].
  apply andb_prop in H. destruct H as [H3 _].
  unfold insert_commas, group_ahead, digit_run.
  rewrite H1, H2, H3, !(is_digit_word _ H1), !(is_digit_word _ H2),
    !(is_digit_word _ H3).
  reflexivity.
Qed.

Lemma group_ahead_single (c : ascii) : group_ahead (String c "") = false.
Proof. unfold group_ahead, digit_run. destruct (JS.is_digit c); reflexivity. Qed.

Lemma insert_commas_group (p b : string) (w : bool) :
  ends_with_word p = true ->
  string_forall JS.is_digit b = true -> String.length b = 3 ->
  insert_commas w (p ++ b) = insert_commas w p ++ "," ++ b.
Proof.
  intros Hp Hb Hl. revert w Hp.
  induction p as [|c p IH]; intros w Hp; [discriminate Hp |].
  destruct p as [|c' p].
  - cbn [ends_with_word] in Hp.
    change (insert_commas w (String c "" ++ b))
      with (if Bool.eqb w (is_word c) && group_ahead (String c "" ++ b)
            then String "," (String c (insert_commas (is_word c) b))
            else String c (insert_commas (is_word c) b)).
    rewrite (group_ahead_app (String c "") b) by (discriminate || assumption).
    cbn [insert_commas].
    rewrite group_ahead_single, andb_false_r, Hp.
    rewrite (insert_commas_three b Hb Hl). reflexivity.
  - change (ends_with_word (String c (String c' p)))
      with (ends_with_word (String c' p)) in Hp.
    change (insert_commas w (String c (String c' p) ++ b))
      with (if Bool.eqb w (is_word c)
               && group_ahead (String c (String c' p) ++ b)
            then String "," (String c (insert_commas (is_word c)
                                         (String c' p ++ b)))
            else String c (insert_commas (is_word c) (String c' p ++ b))).
    rewrite (group_ahead_app (String c (String c' p)) b)
      by (discriminate || assumption).
    rewrite (IH (is_word c) Hp).
    change (insert_commas w (String c (String c' p)))
      with (if Bool.eqb w (is_word c) && group_ahead (String c (String c' p))
            then String "," (String c (insert_commas (is_word c)
                                         (String c' p)))
            else String c (insert_commas (is_word c) (String c' p))).
    destruct (Bool.eqb w (is_word c) && group_ahead (String c (String c' p)));
      reflexivity.
Qed.

(** X21: [formatNumber] leaves a string of at most three digits as it is,
    and sets off each further group of three digits with a comma: when the
    string of the number ends with three digits after a letter or a digit,
    the result is the result for what comes before, a comma, and the three
    digits.  This holds after the decimal point as well as before it. *)
Theorem formatNumber_groups (x : JS.number) :
  (string_forall JS.is_digit (JS.toString x) = true ->
   String.length (JS.toString x) <= 3 ->
   formatNumber x = JS.toString x)
  /\ (forall p b,
        JS.toString x = p ++ b -> ends_with_word p = true ->
        string_forall JS.is_digit b = true -> String.length b = 3 ->
        formatNumber x = insert_commas false p ++ "," ++ b).
Proof.
  unfold formatNumber. split.
  - destruct (JS.toString x) as [|c1 [|c2 [|c3 [|c4 t]]]];
      cbn [string_forall String.length]; intros H L;
      try (cbn in L; lia); try reflexivity.
    + apply andb_prop in H. destruct H as [H1 _].
      unfold insert_commas. rewrite group_ahead_single, andb_false_r.
      reflexivity.
    + apply andb_prop in H. destruct H as [H1 H].
      apply andb_prop in H. destruct H as [H2 _].
      unfold insert_commas, group_ahead, digit_run. rewrite H1, H2.
      rewrite !andb_false_r. reflexivity.
    + apply andb_prop in H. destruct H as [H1 H].
      apply andb_prop in H. destruct H as [H2 H].
      apply andb_prop in H. destruct H as [H3 _].
      unfold insert_commas, group_ahead, digit_run. rewrite H1, H2, H3.
      rewrite (is_digit_word _ H1), !andb_false_r. reflexivity.
  - intros p b E Hp Hb Hl. rewrite E. apply insert_commas_group; assumption.
Qed.

Lemma formatNumber_groups_witness :
  formatNumber (JS.parseFloat "999") = "999"
  /\ formatNumber (JS.parseFloat "1234567") = "1,234" ++ "," ++ "567"
  /\ formatNumber (JS.parseFloat "0.1234") = "0.1" ++ "," ++ "234".
Proof.
  split; [| split].
  - refine (eq_trans (proj1 (formatNumber_groups (JS.parseFloat "999")) _ _) _);
      vm_compute; first [reflexivity | lia].
  - refine (eq_trans
              (proj2 (formatNumber_groups (JS.parseFloat "1234567"))
                     "1234" "567" _ _ _ _) _);
      vm_compute; reflexivity.
  - refine (eq_trans
              (proj2 (formatNumber_groups (JS.parseFloat "0.1234"))
                     "0.1" "234" _ _ _ _) _);
      vm_compute; reflexivity.
Defined.

Lemma remove_insert_commas (s : string) (w : bool) :
  string_forall not_comma s = true -> remove_commas (insert_commas w s) = s.
Proof.
  revert w. induction s as [|c s IH]; intros w H; [reflexivity |].
  cbn [string_forall] in H. apply andb_prop in H. destruct H as [Hc Hs].
  unfold not_comma in Hc. apply negb_true_iff in Hc.
  cbn [insert_commas].
  destruct (Bool.eqb w (is_word c) && group_ahead (String c s));
    cbn [remove_commas Ascii.eqb Bool.eqb]; rewrite Hc, (IH _ Hs); reflexivity.
Qed.

Lemma digits_not_comma (s : string) :
  string_forall JS.is_digit s = true -> string_forall not_comma s = true.
Proof.
  induction s as [|c s IH]; [reflexivity |].
  cbn [string_forall]. intro H. apply andb_prop in H. destruct H as [Hc Hs].
  rewrite (IH Hs), andb_true_r. unfold not_comma.
  destruct (Ascii.eqb_spec c ","); [subst; discriminate Hc | reflexivity].
Qed.

Lemma format_decimal_no_comma (digits : string) (n : Z) :
  string_forall JS.is_digit digits = true ->
  string_forall not_comma (JS.format_decimal digits n) = true.
Proof.
  intro H. unfold JS.format_decimal.
  assert (Hsub : forall i j,
             string_forall not_comma (substring i j digits) = true)
    by (intros; apply digits_not_comma, string_forall_substring, H).
  assert (Hz : forall k, string_forall not_comma (JS.zeros k) = true)
    by (intros; apply digits_not_comma, zeros_digits).
  assert (He : forall k, string_forall not_comma (JS.decimal k) = true)
    by (intros; apply digits_not_comma, decimal_digits).
  pose proof (digits_not_comma digits H) as Hd.
  repeat match goal with
  | |- context [if ?b then _ else _] => destruct b
  end;
  rewrite ?string_forall_app, ?Hsub, ?Hz, ?He, ?Hd; reflexivity.
Qed.

Lemma toString_no_comma (x : JS.number) :
  string_forall not_comma (JS.toString x) = true.
Proof.
  unfold JS.toString. destruct x as [sg | sg | | sg m e].
  - reflexivity.
  - destruct sg; reflexivity.
  - reflexivity.
  - pose proof (shortest_digits m e) as D.
    destruct (JS.shortest m e) as [digits n]. cbn [fst] in D.
    rewrite string_forall_app, (format_decimal_no_comma digits n D).
    destruct sg; reflexivity.
Qed.

(** X22: [formatNumber] only adds commas: taking the commas out of its
    result gives the string of the number back. *)
Theorem formatNumber_roundtrip (x : JS.number) :
  remove_commas (formatNumber x) = JS.toString x.
Proof. apply remove_insert_commas, toString_no_comma. Qed.
